(** * UVBasedPoseReader: the rig builder, embedded over a recording host

    The builder of [UVBasedPoseReader.py] is a straight-line script
    against the host's scripting interface (pymel and maya.cmds).  It is
    embedded here as a tree of host calls.  The host itself is not part
    of the repository: it is stood in for by a recording host, which
    keeps the journal of the calls that went through, hands out node
    handles in the order of creation, and may refuse any call.  The scene
    graph (nodes, attributes, values, connections) is read back from the
    journal. *)

From Stdlib Require Import List String Bool Arith Lia QArith Lqa.
Import ListNotations.
Local Open Scope string_scope.
Local Open Scope list_scope.
Local Open Scope nat_scope.

(** ** Data of the host interface *)

(** A node handle (what a PyNode stands for): the rank of the node's
    creation in the scene. *)
Definition node := nat.

(** An attribute of a node: [Attr "tx"] is [.tx];
    [Elem "colorEntryList" 1 ["color"; "colorG"]] is
    [.colorEntryList[1].color.colorG]. *)
Inductive attr :=
| Attr (a : string)
| Elem (a : string) (i : nat) (path : list string).

Definition plug := (node * attr)%type.

Definition colorEntryList (i : nat) (path : list string) : attr :=
  Elem "colorEntryList" i path.

(** Values handed to setAttr: one number, or three (a colour). *)
Inductive value :=
| Num (q : Q)
| Double3 (x y z : Q).

(** The keyword arguments of addAttr that the builder uses. *)
Record attr_decl := {
  decl_at : option string;
  decl_min : option Q;
  decl_max : option Q;
  decl_dv : option Q;
  decl_k : bool
}.

(** The two attribute-set paths of the source. *)
Inductive api := pymel | maya_cmds.

(** The host calls the builder issues, with the arguments it passes. *)
Inductive call :=
| CreateNode (ty : string) (n : option string) (p : option node)
| ShadingNode (ty : string) (asShader : bool) (n : string)
| Sets (renderable noSurfaceShader empty : bool) (n : string)
| Sphere (ch : bool) (n : string)
| Parent (child par : node)
| AddAttr (o : node) (a : string) (d : attr_decl)
| SetAttr (via : api) (p : plug) (v : value)
| ConnectAttr (src dst : plug)
| GetShape (o : node)
| DefaultNavigation (source : node) (destination : plug)
                    (connectToExisting : bool).

(** What a call hands back to the script. *)
Inductive pyval :=
| PyNone
| PyNode (o : node)
| PyList (l : list node).

Inductive error :=
| HostError (msg : string)
| AttributeError
| IndexError
| TypeError.

Inductive result (A : Type) :=
| Ok (a : A)
| Err (e : error).
Arguments Ok {A} a.
Arguments Err {A} e.

(** ** The scene: the journal of the calls that succeeded, newest first *)

Definition scene := list call.

Record node_info := {
  node_id : node;
  node_type : string;
  node_name : option string;
  node_parent : option node
}.

(** Nodes a call creates, [base] being the rank of the first of them: one
    for createNode and shadingNode; a shadingEngine for a renderable set;
    for a sphere its transform and its shape, and the node of its
    construction history when that is asked for. *)
Definition new_nodes (c : call) (base : node) : list node_info :=
  match c with
  | CreateNode ty n p =>
      [ {| node_id := base; node_type := ty; node_name := n;
           node_parent := p |} ]
  | ShadingNode ty _ n =>
      [ {| node_id := base; node_type := ty; node_name := Some n;
           node_parent := None |} ]
  | Sets _ _ _ n =>
      [ {| node_id := base; node_type := "shadingEngine";
           node_name := Some n; node_parent := None |} ]
  | Sphere ch n =>
      [ {| node_id := base; node_type := "transform";
           node_name := Some n; node_parent := None |};
        {| node_id := S base; node_type := "nurbsSurface";
           node_name := Some (n ++ "Shape")%string;
           node_parent := Some base |} ]
      ++ (if ch
          then [ {| node_id := S (S base); node_type := "makeNurbSphere";
                    node_name := None; node_parent := None |} ]
          else [])
  | _ => []
  end.

Definition created (c : call) : nat :=
  match c with
  | CreateNode _ _ _ | ShadingNode _ _ _ | Sets _ _ _ _ => 1
  | Sphere ch _ => if ch then 3 else 2
  | _ => 0
  end.

Fixpoint node_count (s : scene) : nat :=
  match s with
  | [] => 0
  | c :: s' => created c + node_count s'
  end.

(** The nodes of the scene, oldest first. *)
Fixpoint nodes (s : scene) : list node_info :=
  match s with
  | [] => []
  | c :: s' => nodes s' ++ new_nodes c (node_count s')
  end.

Definition attr_eqb (a b : attr) : bool :=
  match a, b with
  | Attr x, Attr y => String.eqb x y
  | Elem x i p, Elem y j q =>
      String.eqb x y && Nat.eqb i j
      && if list_eq_dec string_dec p q then true else false
  | _, _ => false
  end.

Definition plug_eqb (p q : plug) : bool :=
  Nat.eqb (fst p) (fst q) && attr_eqb (snd p) (snd q).

(** Sources connected into plug [p], oldest first. *)
Fixpoint incoming (s : scene) (p : plug) : list plug :=
  match s with
  | [] => []
  | ConnectAttr src dst :: s' =>
      if plug_eqb dst p then incoming s' p ++ [src] else incoming s' p
  | _ :: s' => incoming s' p
  end.

(** The attribute-set calls made on plug [p], oldest first, each with the
    path it went through. *)
Fixpoint assignments (s : scene) (p : plug) : list (api * value) :=
  match s with
  | [] => []
  | SetAttr via q v :: s' =>
      if plug_eqb q p then assignments s' p ++ [(via, v)]
      else assignments s' p
  | _ :: s' => assignments s' p
  end.

(** The value last set on plug [p]. *)
Definition assigned (s : scene) (p : plug) : option value :=
  match rev (assignments s p) with
  | (_, v) :: _ => Some v
  | [] => None
  end.

(** The attributes added to node [o], oldest first. *)
Fixpoint declared (s : scene) (o : node) : list (string * attr_decl) :=
  match s with
  | [] => []
  | AddAttr o' a d :: s' =>
      if Nat.eqb o' o then declared s' o ++ [(a, d)] else declared s' o
  | _ :: s' => declared s' o
  end.

(** The connections into node [o], oldest first: the attribute driven
    and the plug that drives it. *)
Fixpoint inputs (s : scene) (o : node) : list (attr * plug) :=
  match s with
  | [] => []
  | ConnectAttr src dst :: s' =>
      if Nat.eqb (fst dst) o then inputs s' o ++ [(snd dst, src)]
      else inputs s' o
  | _ :: s' => inputs s' o
  end.

(** Every value set on an attribute of node [o], oldest first. *)
Fixpoint attrs_set (s : scene) (o : node) : list (attr * value) :=
  match s with
  | [] => []
  | SetAttr _ p v :: s' =>
      if Nat.eqb (fst p) o then attrs_set s' o ++ [(snd p, v)]
      else attrs_set s' o
  | _ :: s' => attrs_set s' o
  end.

(** The colorEntryList index plug [p] goes through, if it is one of
    node [o]. *)
Definition entry_of (o : node) (p : plug) : list nat :=
  match snd p with
  | Elem a i _ =>
      if Nat.eqb (fst p) o && String.eqb a "colorEntryList" then [i] else []
  | Attr _ => []
  end.

Definition touches (c : call) (o : node) : list nat :=
  match c with
  | SetAttr _ p _ => entry_of o p
  | ConnectAttr src dst => entry_of o src ++ entry_of o dst
  | _ => []
  end.

Fixpoint stops (s : scene) (o : node) : list nat :=
  match s with
  | [] => []
  | c :: s' => stops s' o ++ touches c o
  end.

(** The stops of ramp [o]: the colorEntryList indices some call set or
    connected, in increasing order. *)
Definition stop_indices (s : scene) (o : node) : list nat :=
  filter (fun i => existsb (Nat.eqb i) (stops s o))
         (seq 0 (S (list_max (stops s o)))).

(** Where node [o] was created, and as what. *)
Fixpoint info_of (s : scene) (o : node) : option node_info :=
  match s with
  | [] => None
  | c :: s' =>
      match find (fun i => Nat.eqb (node_id i) o)
                 (new_nodes c (node_count s')) with
      | Some i => Some i
      | None => info_of s' o
      end
  end.

Definition type_of (s : scene) (o : node) : option string :=
  option_map node_type (info_of s o).

(** The parent of node [o]: the last reparenting, else the parent it was
    created under. *)
Fixpoint parent_of (s : scene) (o : node) : option node :=
  match s with
  | [] => None
  | Parent c p :: s' => if Nat.eqb c o then Some p else parent_of s' o
  | c :: s' =>
      match find (fun i => Nat.eqb (node_id i) o)
                 (new_nodes c (node_count s')) with
      | Some i => node_parent i
      | None => parent_of s' o
      end
  end.

Definition is_shape (ty : string) : bool :=
  String.eqb ty "nurbsSurface" || String.eqb ty "locator".

(** The shape nodes call [c] puts under transform [o]. *)
Definition shapes_under (c : call) (base o : node) : list node :=
  map node_id
      (filter (fun i => is_shape (node_type i)
                        && match node_parent i with
                           | Some p => Nat.eqb p o
                           | None => false
                           end)
              (new_nodes c base)).

(** The first shape node created under transform [o]. *)
Fixpoint shape_of (s : scene) (o : node) : option node :=
  match s with
  | [] => None
  | c :: s' =>
      match shape_of s' o with
      | Some x => Some x
      | None => hd_error (shapes_under c (node_count s') o)
      end
  end.

(** What the host hands back for call [c] made on scene [s]. *)
Definition answer (c : call) (s : scene) : pyval :=
  match c with
  | CreateNode _ _ _ | ShadingNode _ _ _ | Sets _ _ _ _ =>
      PyNode (node_count s)
  | Sphere ch _ =>
      PyList (node_count s
              :: if ch then [S (S (node_count s))] else [])
  | GetShape o =>
      match shape_of s o with
      | Some x => PyNode x
      | None => PyNone
      end
  | _ => PyNone
  end.

(** A query leaves the scene as it is; every other call is journalled. *)
Definition commit (c : call) (s : scene) : scene :=
  match c with
  | GetShape _ => s
  | _ => c :: s
  end.

(** ** Scripts: trees of host calls *)

Inductive prog (A : Type) :=
| Ret (a : A)
| Throw (e : error)
| Call (c : call) (k : pyval -> prog A).
Arguments Ret {A} a.
Arguments Throw {A} e.
Arguments Call {A} c k.

Fixpoint bind {A B : Type} (m : prog A) (f : A -> prog B) : prog B :=
  match m with
  | Ret a => f a
  | Throw e => Throw e
  | Call c k => Call c (fun v => bind (k v) f)
  end.

Declare Scope prog_scope.
Delimit Scope prog_scope with prog.
Notation "x <- m ;; k" := (bind m (fun x => k))
  (at level 61, m at next level, right associativity) : prog_scope.
Notation "m ;; k" := (bind m (fun _ => k))
  (at level 61, right associativity) : prog_scope.
Local Open Scope prog_scope.

(** The host decides, call by call, whether it raises: [h c s] is the
    error it raises for call [c] on scene [s], if any. *)
Definition host := call -> scene -> option string.

(** The host on which every call goes through. *)
Definition willing : host := fun _ _ => None.

(** Running a script: a call the host refuses raises the host's error on
    the spot, the scene staying as the calls before it left it; nothing in
    the source catches it. *)
Fixpoint run {A : Type} (h : host) (p : prog A) (s : scene)
  : result A * scene :=
  match p with
  | Ret a => (Ok a, s)
  | Throw e => (Err e, s)
  | Call c k =>
      match h c s with
      | Some msg => (Err (HostError msg), s)
      | None => run h (k (answer c s)) (commit c s)
      end
  end.

(** Python-side accessors. *)
Definition as_node {A : Type} (v : pyval) (k : node -> prog A) : prog A :=
  match v with
  | PyNode o => k o
  | PyNone => Throw AttributeError
  | PyList _ => Throw AttributeError
  end.

(** [v[0]] *)
Definition item0 (v : pyval) : prog node :=
  match v with
  | PyList (o :: _) => Ret o
  | PyList [] => Throw IndexError
  | _ => Throw TypeError
  end.

(** [self.field.something] on a field that may still be None. *)
Definition the (field : option node) : prog node :=
  match field with
  | Some o => Ret o
  | None => Throw AttributeError
  end.

Definition attribute (o : node) (a : string) : plug := (o, Attr a).
Notation "o @ a" := (attribute o a) (at level 9, a at level 0).

(** pymel.core *)
Module pm.
Definition createNode (ty : string) (n : option string) (p : option node)
  : prog node :=
  Call (CreateNode ty n p) (fun v => as_node v Ret).
Definition shadingNode (ty : string) (asShader : bool) (n : string)
  : prog node :=
  Call (ShadingNode ty asShader n) (fun v => as_node v Ret).
Definition sets (renderable noSurfaceShader empty : bool) (n : string)
  : prog node :=
  Call (Sets renderable noSurfaceShader empty n) (fun v => as_node v Ret).
Definition sphere (ch : bool) (n : string) : prog pyval :=
  Call (Sphere ch n) Ret.
Definition parent (child par : node) : prog unit :=
  Call (Parent child par) (fun _ => Ret tt).
Definition addAttr (o : node) (a : string) (d : attr_decl) : prog unit :=
  Call (AddAttr o a d) (fun _ => Ret tt).
Definition setAttr (o : node) (a : attr) (v : value) : prog unit :=
  Call (SetAttr pymel (o, a) v) (fun _ => Ret tt).
Definition connect (src dst : plug) : prog unit :=
  Call (ConnectAttr src dst) (fun _ => Ret tt).
Definition getShape (o : node) : prog pyval :=
  Call (GetShape o) Ret.
Definition defaultNavigation (source : node) (destination : plug)
           (connectToExisting : bool) : prog unit :=
  Call (DefaultNavigation source destination connectToExisting)
       (fun _ => Ret tt).
End pm.

(** maya.cmds *)
Module cmds.
Definition setAttr (p : plug) (v : value) : prog unit :=
  Call (SetAttr maya_cmds p v) (fun _ => Ret tt).
End cmds.

Notation "a >> b" := (pm.connect a b) (at level 50) : prog_scope.

(** ** The class *)

Module UVBasedPoseReader.

(** The instance; the fields are those [__init__] sets, and [sphere],
    which [_basic_setup] adds. *)
Record self_t := {
  name : string;
  cone_angle : Q;
  with_visualizer : bool;
  info_node : option node;
  nurbs_sphere : option node;
  point_on_surface : option node;
  ramp : option node;
  driver : option node;
  pose : option node;
  sphere : option node
}.

Definition set_info_node (v : node) (self : self_t) : self_t :=
  {| name := name self; cone_angle := cone_angle self;
     with_visualizer := with_visualizer self;
     info_node := Some v; nurbs_sphere := nurbs_sphere self;
     point_on_surface := point_on_surface self; ramp := ramp self;
     driver := driver self; pose := pose self; sphere := sphere self |}.

Definition set_sphere (v : node) (self : self_t) : self_t :=
  {| name := name self; cone_angle := cone_angle self;
     with_visualizer := with_visualizer self;
     info_node := info_node self; nurbs_sphere := nurbs_sphere self;
     point_on_surface := point_on_surface self; ramp := ramp self;
     driver := driver self; pose := pose self; sphere := Some v |}.

Definition set_point_on_surface (v : node) (self : self_t) : self_t :=
  {| name := name self; cone_angle := cone_angle self;
     with_visualizer := with_visualizer self;
     info_node := info_node self; nurbs_sphere := nurbs_sphere self;
     point_on_surface := Some v; ramp := ramp self;
     driver := driver self; pose := pose self; sphere := sphere self |}.

Definition set_ramp (v : node) (self : self_t) : self_t :=
  {| name := name self; cone_angle := cone_angle self;
     with_visualizer := with_visualizer self;
     info_node := info_node self; nurbs_sphere := nurbs_sphere self;
     point_on_surface := point_on_surface self; ramp := Some v;
     driver := driver self; pose := pose self; sphere := sphere self |}.

Definition set_driver (v : node) (self : self_t) : self_t :=
  {| name := name self; cone_angle := cone_angle self;
     with_visualizer := with_visualizer self;
     info_node := info_node self; nurbs_sphere := nurbs_sphere self;
     point_on_surface := point_on_surface self; ramp := ramp self;
     driver := Some v; pose := pose self; sphere := sphere self |}.

Definition set_pose (v : node) (self : self_t) : self_t :=
  {| name := name self; cone_angle := cone_angle self;
     with_visualizer := with_visualizer self;
     info_node := info_node self; nurbs_sphere := nurbs_sphere self;
     point_on_surface := point_on_surface self; ramp := ramp self;
     driver := driver self; pose := Some v; sphere := sphere self |}.

Definition kwargs (at_ : option string) (min max dv : option Q) (k : bool)
  : attr_decl :=
  {| decl_at := at_; decl_min := min; decl_max := max; decl_dv := dv;
     decl_k := k |}.

(** Create the nurbs sphere and the necessary utility nodes. *)
Definition _basic_setup (self : self_t) : prog self_t :=
  info_node <- pm.createNode "transform"
                 (Some ("C_" ++ name self ++ "_GRP")%string) None ;;
  let self := set_info_node info_node self in
  pm.addAttr info_node "outValue"
             (kwargs None (Some (-1)%Q) (Some 1%Q) None true) ;;
  pm.addAttr info_node "coneAngle"
             (kwargs None (Some 0%Q) (Some 180%Q)
                     (Some (cone_angle self)) true) ;;
  pm.addAttr info_node "visualize"
             (kwargs (Some "bool") None None (Some 1%Q) true) ;;

  made <- pm.sphere false ("C_" ++ name self ++ "_NRB")%string ;;
  sphere <- item0 made ;;
  let self := set_sphere sphere self in
  pm.parent sphere info_node ;;
  point_on_surface <- pm.createNode "closestPointOnSurface" None None ;;
  let self := set_point_on_surface point_on_surface self in
  mdl <- pm.createNode "multDoubleLinear" None None ;;
  ramp <- pm.createNode "ramp" None None ;;
  let self := set_ramp ramp self in

  sphere@"ws" >> point_on_surface@"inputSurface" ;;
  pm.setAttr mdl (Attr "input2") (Num (1 # 4)) ;;
  point_on_surface@"parameterU" >> mdl@"input1" ;;
  mdl@"output" >> ramp@"uCoord" ;;
  pm.setAttr ramp (Attr "type") (Num 1) ;;
  pm.setAttr ramp (colorEntryList 0 ["color"]) (Double3 0 0 0) ;;
  pm.setAttr ramp (colorEntryList 1 ["position"]) (Num 1) ;;
  pm.setAttr ramp (colorEntryList 1 ["color"]) (Double3 1 1 1) ;;
  pm.setAttr ramp (colorEntryList 2 ["position"]) (Num 0) ;;
  (* maya.cmds here: pymel does not allow a negative value on a colour *)
  cmds.setAttr (ramp, colorEntryList 2 ["color"])
               (Double3 (-1) (-1) (-1)) ;;
  pm.setAttr ramp (colorEntryList 3 ["color"]) (Double3 0 0 0) ;;
  ramp@"outColorR" >> info_node@"outValue" ;;

  (* cone angle *)
  rmv <- pm.createNode "remapValue" (Some "coneAngle") None ;;
  pm.setAttr rmv (Attr "inputMin") (Num 0) ;;
  pm.setAttr rmv (Attr "inputMax") (Num 180) ;;
  pm.setAttr rmv (Attr "outputMin") (Num 1) ;;
  pm.setAttr rmv (Attr "outputMax") (Num (1 # 2)) ;;
  info_node@"coneAngle" >> rmv@"inputValue" ;;
  rmv@"outValue" >> (ramp, colorEntryList 0 ["position"]) ;;
  rvs <- pm.createNode "reverse" (Some "coneAngle") None ;;
  rmv@"outValue" >> rvs@"inputX" ;;
  rvs@"outputX" >> (ramp, colorEntryList 3 ["position"]) ;;
  Ret self.

(** Setup the driver and the pose locator. *)
Definition _target_setup (self : self_t) : prog self_t :=
  driver <- pm.createNode "transform"
              (Some ("C_" ++ name self ++ "Driver_LOC")%string)
              (info_node self) ;;
  let self := set_driver driver self in
  pm.createNode "locator"
                (Some ("C_" ++ name self ++ "Driver_LOCShape")%string)
                (Some driver) ;;
  pose <- pm.createNode "transform"
            (Some ("C_" ++ name self ++ "Pose_LOC")%string)
            (Some driver) ;;
  let self := set_pose pose self in
  pm.createNode "locator"
                (Some ("C_" ++ name self ++ "Pose_LOCShape")%string)
                (Some pose) ;;
  pm.setAttr pose (Attr "tx") (Num 1) ;;
  dcm <- pm.createNode "decomposeMatrix" None None ;;
  pose@"wm" >> dcm@"inputMatrix" ;;
  point_on_surface <- the (point_on_surface self) ;;
  dcm@"outputTranslate" >> point_on_surface@"inPosition" ;;
  Ret self.

(** Add a shader to visualize the outValue and the coneAngle. *)
Definition _visualizer_setup (self : self_t) : prog self_t :=
  visualize_sdr <- pm.shadingNode "surfaceShader" true "visualize" ;;
  sets <- pm.sets true true true "visualize" ;;
  visualize_sdr@"outColor" >> sets@"surfaceShader" ;;
  vis_ramp <- pm.createNode "ramp" (Some "visualize") None ;;
  pm.setAttr vis_ramp (Attr "type") (Num 1) ;;
  pm.setAttr vis_ramp (colorEntryList 0 ["color"]) (Double3 0 0 0) ;;
  pm.setAttr vis_ramp (colorEntryList 1 ["position"]) (Num 1) ;;
  pm.setAttr vis_ramp (colorEntryList 1 ["color"]) (Double3 0 0 0) ;;
  pm.setAttr vis_ramp (colorEntryList 2 ["position"]) (Num 0) ;;
  cmds.setAttr (vis_ramp, colorEntryList 2 ["color"]) (Double3 0 0 0) ;;
  pm.setAttr vis_ramp (colorEntryList 3 ["color"]) (Double3 0 0 0) ;;
  self_ramp <- the (ramp self) ;;
  self_ramp@"outColorR"
    >> (vis_ramp, colorEntryList 1 ["color"; "colorG"]) ;;
  rmv <- pm.createNode "remapValue" (Some "visualize") None ;;
  pm.setAttr rmv (Attr "inputMin") (Num (-1)) ;;
  pm.setAttr rmv (Attr "inputMax") (Num 0) ;;
  pm.setAttr rmv (Attr "outputMin") (Num 1) ;;
  pm.setAttr rmv (Attr "outputMax") (Num 0) ;;
  self_ramp <- the (ramp self) ;;
  self_ramp@"outColorR" >> rmv@"inputValue" ;;
  rmv@"outValue" >> (vis_ramp, colorEntryList 2 ["color"; "colorR"]) ;;

  self_ramp <- the (ramp self) ;;
  (self_ramp, colorEntryList 0 ["position"])
    >> (vis_ramp, colorEntryList 0 ["position"]) ;;
  self_ramp <- the (ramp self) ;;
  (self_ramp, colorEntryList 3 ["position"])
    >> (vis_ramp, colorEntryList 3 ["position"]) ;;

  vis_ramp@"outColor" >> visualize_sdr@"outColor" ;;
  self_sphere <- the (sphere self) ;;
  got <- pm.getShape self_sphere ;;
  as_node got (fun shape =>
    pm.defaultNavigation visualize_sdr (shape, Elem "instObjGroups" 0 [])
                         true ;;
    Ret self).

(** Run the setup. *)
Definition setup (self : self_t) : prog self_t :=
  self <- _basic_setup self ;;
  self <- _target_setup self ;;
  if with_visualizer self
  then _visualizer_setup self
  else Ret self.

(** The instance as the assignments at the head of [__init__] leave it. *)
Definition blank (name : string) (cone_angle : Q) (with_visualizer : bool)
  : self_t :=
  {| name := name; cone_angle := cone_angle;
     with_visualizer := with_visualizer;
     info_node := None; nurbs_sphere := None;
     point_on_surface := None; ramp := None;
     driver := None; pose := None; sphere := None |}.

(** Initialize the PoseReader; an argument left out ([None]) takes the
    default of the signature. *)
Definition __init__ (name : option string) (cone_angle : option Q)
           (with_visualizer : option bool) : prog self_t :=
  let name := match name with Some x => x
              | None => "UVBasedPoseReader" end in
  let cone_angle := match cone_angle with Some x => x
                    | None => 180%Q end in
  let with_visualizer := match with_visualizer with Some x => x
                         | None => true end in
  setup (blank name cone_angle with_visualizer).

End UVBasedPoseReader.

(** The last statement of the module: [UVBasedPoseReader()]. *)
Definition module_body : prog UVBasedPoseReader.self_t :=
  UVBasedPoseReader.__init__ None None None.

(** ** Reading values off the graph *)

Definition is_node (s : scene) (o : node) (ty : string) : bool :=
  match type_of s o with
  | Some t => String.eqb t ty
  | None => false
  end.

(** The default value an added attribute was declared with. *)
Definition default_of (s : scene) (p : plug) : option Q :=
  match snd p with
  | Attr a =>
      match find (fun d => String.eqb (fst d) a) (declared s (fst p)) with
      | Some d => decl_dv (snd d)
      | None => None
      end
  | Elem _ _ _ => None
  end.

(** Modelled from the spec: an attribute with an incoming connection is
    computed by the host and is read-only; an attribute without one can
    be set.  The host's own rule is not part of the repository. *)
Definition settable (s : scene) (p : plug) : bool :=
  match incoming s p with
  | [] => true
  | _ :: _ => false
  end.

(** Modelled from the spec: the remap node, "mapping linearly" the input
    range onto the output range. *)
Definition remap (v inputMin inputMax outputMin outputMax : Q) : Q :=
  (outputMin + (v - inputMin) / (inputMax - inputMin)
               * (outputMax - outputMin))%Q.

(** Modelled from the spec: the reverse node, the complement of its
    input. *)
Definition reverse (x : Q) : Q := (1 - x)%Q.

(** Modelled from the spec: the host's evaluation of the utility nodes is
    not part of the repository.  A plug with an incoming connection takes
    the value of its source; the remap node maps its input linearly from
    [inputMin, inputMax] to [outputMin, outputMax]; the reverse node
    yields the complement [1 - x]; the scalar multiplier yields the
    product of its two inputs; any other plug holds the value last set on
    it, else its declared default, else what the host computes for it
    ([env]: the sampler's parameterU, for one).  The bounds an attribute
    was declared with are not enforced and the remap node is not clamped:
    a value read here is the host's only for inputs within the declared
    bounds and within the remap node's input range. *)
Fixpoint eval (fuel : nat) (s : scene) (env : plug -> option Q) (p : plug)
  : option Q :=
  match fuel with
  | 0 => None
  | S fuel' =>
      match incoming s p with
      | src :: _ => eval fuel' s env src
      | [] =>
          let get a := eval fuel' s env (fst p, Attr a) in
          if is_node s (fst p) "remapValue"
             && attr_eqb (snd p) (Attr "outValue")
          then
            match get "inputValue", get "inputMin", get "inputMax",
                  get "outputMin", get "outputMax" with
            | Some v, Some a, Some b, Some c, Some d =>
                Some (remap v a b c d)
            | _, _, _, _, _ => None
            end
          else if is_node s (fst p) "reverse"
                  && attr_eqb (snd p) (Attr "outputX")
          then
            match get "inputX" with
            | Some x => Some (reverse x)
            | None => None
            end
          else if is_node s (fst p) "multDoubleLinear"
                  && attr_eqb (snd p) (Attr "output")
          then
            match get "input1", get "input2" with
            | Some x, Some y => Some (x * y)%Q
            | _, _ => None
            end
          else
            match assigned s p with
            | Some (Num q) => Some q
            | Some (Double3 _ _ _) => None
            | None =>
                match default_of s p with
                | Some q => Some q
                | None => env p
                end
            end
      end
  end.

(** ** Ramp stops *)

(** The colour last set on each stop of ramp [o], by increasing index. *)
Definition stop_colors (s : scene) (o : node) : list (option value) :=
  map (fun i => assigned s (o, colorEntryList i ["color"]))
      (stop_indices s o).

(** The path each stop colour was set through, by increasing index. *)
Definition stop_color_paths (s : scene) (o : node) : list (list api) :=
  map (fun i => map fst (assignments s (o, colorEntryList i ["color"])))
      (stop_indices s o).

(** A value with a channel below zero. *)
Definition is_negative (v : value) : bool :=
  match v with
  | Num q => negb (Qle_bool 0 q)
  | Double3 x y z =>
      negb (Qle_bool 0 x) || negb (Qle_bool 0 y) || negb (Qle_bool 0 z)
  end.

(** The stops of ramp [o] whose colour is negative. *)
Definition negative_stops (s : scene) (o : node) : list nat :=
  filter (fun i => match assigned s (o, colorEntryList i ["color"]) with
                   | Some v => is_negative v
                   | None => false
                   end)
         (stop_indices s o).

Inductive shade := White | Black.

Definition shade_eqb (a b : shade) : bool :=
  match a, b with
  | White, White | Black, Black => true
  | _, _ => false
  end.

(** The shade of a colour, its sign set aside: black when the channels
    are all 0, white when they are all 1 or all -1. *)
Definition shade_of (v : value) : option shade :=
  match v with
  | Double3 x y z =>
      if Qeq_bool x 0 && Qeq_bool y 0 && Qeq_bool z 0 then Some Black
      else if (Qeq_bool x 1 && Qeq_bool y 1 && Qeq_bool z 1)
              || (Qeq_bool x (-1) && Qeq_bool y (-1) && Qeq_bool z (-1))
      then Some White
      else None
  | Num _ => None
  end.

(** Every colour of the list is white or black, and each differs from
    the next. *)
Fixpoint alternates (l : list (option shade)) : bool :=
  match l with
  | [] => true
  | None :: _ => false
  | Some a :: rest =>
      match rest with
      | Some b :: _ => negb (shade_eqb a b)
      | _ => true
      end && alternates rest
  end.

Definition shades_of (s : scene) (o : node) (order : list nat)
  : list (option shade) :=
  map (fun i => match assigned s (o, colorEntryList i ["color"]) with
                | Some v => shade_of v
                | None => None
                end)
      order.

(** The ramp, the info node and the pose of a build that returned. *)
Definition built (field : UVBasedPoseReader.self_t -> option node)
           (r : result UVBasedPoseReader.self_t) : option node :=
  match r with
  | Ok self => field self
  | Err _ => None
  end.

(** ** Well-formed scenes *)

(** The nodes a call refers to. *)
Definition mentions (c : call) : list node :=
  match c with
  | CreateNode _ _ (Some p) => [p]
  | Parent child par => [child; par]
  | AddAttr o _ _ => [o]
  | SetAttr _ p _ => [fst p]
  | ConnectAttr src dst => [fst src; fst dst]
  | GetShape o => [o]
  | DefaultNavigation source destination _ => [source; fst destination]
  | _ => []
  end.

(** Every call of the journal refers to nodes below rank [n] only. *)
Definition below (n : nat) (s : scene) : bool :=
  forallb (fun c => forallb (fun o => Nat.ltb o n) (mentions c)) s.

(** A scene whose calls refer to nodes of the scene only: a handle the
    host is about to hand out is not yet in use. *)
Definition scene_ok (s : scene) : bool := below (node_count s) s.


(** ** Renumbering: the same calls, [n] nodes later

    The builder never names a node of the scene it starts from: every
    handle it passes to the host is one the host handed back to it.  Its
    journal on a scene holding [n] nodes is thus its journal on the empty
    scene with every handle moved up by [n]. *)

Definition up (n : nat) (o : node) : node := o + n.

Definition shift_plug (n : nat) (p : plug) : plug := (up n (fst p), snd p).

Definition shift_call (n : nat) (c : call) : call :=
  match c with
  | CreateNode ty nm p => CreateNode ty nm (option_map (up n) p)
  | Parent child par => Parent (up n child) (up n par)
  | AddAttr o a d => AddAttr (up n o) a d
  | SetAttr via p v => SetAttr via (shift_plug n p) v
  | ConnectAttr src dst => ConnectAttr (shift_plug n src) (shift_plug n dst)
  | GetShape o => GetShape (up n o)
  | DefaultNavigation source destination b =>
      DefaultNavigation (up n source) (shift_plug n destination) b
  | ShadingNode _ _ _ | Sets _ _ _ _ | Sphere _ _ => c
  end.

Definition shift (n : nat) (s : scene) : scene := map (shift_call n) s.

Definition shift_val (n : nat) (v : pyval) : pyval :=
  match v with
  | PyNone => PyNone
  | PyNode o => PyNode (up n o)
  | PyList l => PyList (map (up n) l)
  end.

Definition shift_info (n : nat) (i : node_info) : node_info :=
  {| node_id := up n (node_id i); node_type := node_type i;
     node_name := node_name i;
     node_parent := option_map (up n) (node_parent i) |}.

Definition shift_self (n : nat) (self : UVBasedPoseReader.self_t)
  : UVBasedPoseReader.self_t :=
  let up := option_map (up n) in
  {| UVBasedPoseReader.name := UVBasedPoseReader.name self;
     UVBasedPoseReader.cone_angle := UVBasedPoseReader.cone_angle self;
     UVBasedPoseReader.with_visualizer :=
       UVBasedPoseReader.with_visualizer self;
     UVBasedPoseReader.info_node := up (UVBasedPoseReader.info_node self);
     UVBasedPoseReader.nurbs_sphere :=
       up (UVBasedPoseReader.nurbs_sphere self);
     UVBasedPoseReader.point_on_surface :=
       up (UVBasedPoseReader.point_on_surface self);
     UVBasedPoseReader.ramp := up (UVBasedPoseReader.ramp self);
     UVBasedPoseReader.driver := up (UVBasedPoseReader.driver self);
     UVBasedPoseReader.pose := up (UVBasedPoseReader.pose self);
     UVBasedPoseReader.sphere := up (UVBasedPoseReader.sphere self) |}.

Definition map_result {A : Type} (f : A -> A) (r : result A) : result A :=
  match r with
  | Ok a => Ok (f a)
  | Err e => Err e
  end.

(** [moved n sh p q]: script [q] is script [p] with every handle moved up
    by [n], results included ([sh]). *)
Inductive moved (n : nat) {A : Type} (sh : A -> A)
  : prog A -> prog A -> Prop :=
| moved_ret (a : A) : moved n sh (Ret a) (Ret (sh a))
| moved_throw (e : error) : moved n sh (Throw e) (Throw e)
| moved_call (c : call) (k k' : pyval -> prog A) :
    (forall v, moved n sh (k v) (k' (shift_val n v))) ->
    moved n sh (Call c k) (Call (shift_call n c) k').

(** A host that refuses to make the sphere (its name is taken, say) and
    lets every other call through. *)
Definition clash_host : host :=
  fun c _ =>
    match c with
    | Sphere _ _ => Some "name clash"
    | _ => None
    end.

(** A scene that already holds a joint with a locator under it. *)
Definition busy_scene : scene :=
  [ CreateNode "locator" None (Some 0); CreateNode "joint" None None ].


(** ** Further views and relations *)

(** The connections out of node [o], oldest first: the attribute read
    and the plug it drives. *)
Fixpoint outputs (s : scene) (o : node) : list (attr * plug) :=
  match s with
  | [] => []
  | ConnectAttr src dst :: s' =>
      if Nat.eqb (fst src) o then outputs s' o ++ [(snd src, dst)]
      else outputs s' o
  | _ :: s' => outputs s' o
  end.

(** The name a call asks the host to give the node it creates (the
    [n=] argument), if it asks for one. *)
Definition asks (c : call) : list string :=
  match c with
  | CreateNode _ (Some n) _ => [n]
  | ShadingNode _ _ n => [n]
  | Sets _ _ _ n => [n]
  | Sphere _ n => [n]
  | _ => []
  end.

(** The names asked for, oldest first. *)
Fixpoint asked (s : scene) : list string :=
  match s with
  | [] => []
  | c :: s' => asked s' ++ asks c
  end.

(** Every call of [d] refers only to nodes that existed when it was
    made, the scene holding [base] nodes before the oldest of them. *)
Fixpoint ordered (base : nat) (d : scene) : bool :=
  match d with
  | [] => true
  | c :: d' =>
      forallb (fun o => Nat.ltb o (node_count d' + base)) (mentions c)
      && ordered base d'
  end.

(** No call of [d] refers to a node below rank [n]. *)
Definition above (n : nat) (d : scene) : bool :=
  forallb (fun c => forallb (fun o => Nat.leb n o) (mentions c)) d.

(** [extends p q]: script [q] makes the calls of script [p], in the same
    order and with the same arguments whatever the host answers, and goes
    on where [p] returns. *)
Inductive extends {A B : Type} : prog A -> prog B -> Prop :=
| extends_ret (a : A) (q : prog B) : extends (Ret a) q
| extends_throw (e : error) : extends (Throw e) (Throw e)
| extends_call (c : call) (k : pyval -> prog A) (k' : pyval -> prog B) :
    (forall v, extends (k v) (k' v)) ->
    extends (Call c k) (Call c k').

(** [doomed E p]: whatever the host answers, script [p] raises an error
    of [E], unless the host refuses a call first. *)
Inductive doomed {A : Type} (E : error -> Prop) : prog A -> Prop :=
| doomed_throw (e : error) : E e -> doomed E (Throw e)
| doomed_call (c : call) (k : pyval -> prog A) :
    (forall v, doomed E (k v)) -> doomed E (Call c k).

(** The nodes a call reparents, adds an attribute to, sets a value on or
    connects into. *)
Definition writes (c : call) : list node :=
  match c with
  | Parent child _ => [child]
  | AddAttr o _ _ => [o]
  | SetAttr _ p _ => [fst p]
  | ConnectAttr _ dst => [fst dst]
  | _ => []
  end.

(** No call of [d] reparents, adds an attribute to, sets a value on or
    connects into a node below rank [n]. *)
Definition writes_above (n : nat) (d : scene) : bool :=
  forallb (fun c => forallb (fun o => Nat.leb n o) (writes c)) d.

(** A host that refuses to make a render set and lets every other call
    through. *)
Definition no_sets_host : host :=
  fun c _ =>
    match c with
    | Sets _ _ _ _ => Some "no render set"
    | _ => None
    end.
(** ** Laws of running a script *)

Lemma commit_grows (c : call) (s : scene) :
  exists done, commit c s = done ++ s.
Proof.
  destruct c; simpl; solve [ now exists [] | now eexists [_] ].
Qed.

Section Run.
Context {A : Type}.
Implicit Types (h : host) (p : prog A) (s : scene).

Lemma run_bind {B : Type} h (m : prog A) (f : A -> prog B) s :
  run h (bind m f) s =
  match run h m s with
  | (Ok a, s1) => run h (f a) s1
  | (Err e, s1) => (Err e, s1)
  end.
Proof.
  revert s; induction m as [a | e | c k IH]; intros s; simpl; trivial.
  destruct (h c s); trivial.
Qed.

(** A run that returns met no refusal: the willing host runs it alike. *)
Lemma run_ok_willing h p s s' (a : A) :
  run h p s = (Ok a, s') -> run willing p s = (Ok a, s').
Proof.
  revert s; induction p as [x | e | c k IH]; intros s; simpl; trivial.
  destruct (h c s); [discriminate | apply IH].
Qed.

(** A run only ever adds to the journal. *)
Lemma run_grows h p s s' (r : result A) :
  run h p s = (r, s') -> exists done, s' = done ++ s.
Proof.
  revert s; induction p as [x | e | c k IH]; intros s; simpl.
  - intros [= _ <-]; now exists [].
  - intros [= _ <-]; now exists [].
  - destruct (h c s).
    + intros [= _ <-]; now exists [].
    + intros H; destruct (IH _ _ H) as [done ->].
      destruct (commit_grows c s) as [d ->].
      exists (done ++ d); now rewrite app_assoc.
Qed.

(** Wherever a run stops, its journal is an initial stretch of the
    journal of the unhindered run. *)
Lemma run_prefix h p s s' (r : result A) :
  run h p s = (r, s') -> exists rest, snd (run willing p s) = rest ++ s'.
Proof.
  revert s; induction p as [x | e | c k IH]; intros s; simpl.
  - intros [= _ <-]; now exists [].
  - intros [= _ <-]; now exists [].
  - destruct (h c s).
    + intros [= _ <-].
      destruct (run willing (k (answer c s)) (commit c s)) as [r' s1] eqn:E.
      destruct (run_grows _ _ _ _ _ E) as [done ->].
      destruct (commit_grows c s) as [d ->].
      exists (done ++ d); now rewrite app_assoc.
    + apply IH.
Qed.

(** An error comes out of a run in one of two ways: the host refused a
    call, on the scene the run stops at, and its error is handed up as
    it is; or the script raised it itself, which it then does on the
    willing host too. *)
Lemma run_err h p s s' (e : error) :
  run h p s = (Err e, s') ->
  (exists c msg, h c s' = Some msg /\ e = HostError msg)
  \/ run willing p s = (Err e, s').
Proof.
  revert s; induction p as [x | e' | c k IH]; intros s; simpl.
  - discriminate.
  - now right.
  - destruct (h c s) as [msg |] eqn:E.
    + intros [= <- <-]; left; now exists c, msg.
    + apply IH.
Qed.
End Run.

(** ** Handles not yet handed out are not in use *)

Lemma fresh_neq (n o x : node) :
  n <= o -> Nat.ltb x n = true -> Nat.eqb x o = false.
Proof.
  intros Ho H; apply Nat.ltb_lt in H; apply Nat.eqb_neq; lia.
Qed.

Lemma incoming_fresh (n : nat) (s : scene) (o : node) (a : attr) :
  below n s = true -> n <= o -> incoming s (o, a) = [].
Proof.
  intros Hs Ho; induction s as [| c s IH]; trivial.
  simpl in Hs; apply andb_prop in Hs as [Hc Hs].
  destruct c; simpl; auto.
  simpl in Hc; apply andb_prop in Hc as [_ Hc];
    apply andb_prop in Hc as [Hc _].
  unfold plug_eqb; simpl; rewrite (fresh_neq n o _ Ho Hc); simpl; auto.
Qed.

Lemma assignments_fresh (n : nat) (s : scene) (o : node) (a : attr) :
  below n s = true -> n <= o -> assignments s (o, a) = [].
Proof.
  intros Hs Ho; induction s as [| c s IH]; trivial.
  simpl in Hs; apply andb_prop in Hs as [Hc Hs].
  destruct c; simpl; auto.
  simpl in Hc; apply andb_prop in Hc as [Hc _].
  unfold plug_eqb; simpl; rewrite (fresh_neq n o _ Ho Hc); simpl; auto.
Qed.

Lemma inputs_fresh (n : nat) (s : scene) (o : node) :
  below n s = true -> n <= o -> inputs s o = [].
Proof.
  intros Hs Ho; induction s as [| c s IH]; trivial.
  simpl in Hs; apply andb_prop in Hs as [Hc Hs].
  destruct c; simpl; auto.
  simpl in Hc; apply andb_prop in Hc as [_ Hc];
    apply andb_prop in Hc as [Hc _].
  rewrite (fresh_neq n o _ Ho Hc); auto.
Qed.

Lemma attrs_set_fresh (n : nat) (s : scene) (o : node) :
  below n s = true -> n <= o -> attrs_set s o = [].
Proof.
  intros Hs Ho; induction s as [| c s IH]; trivial.
  simpl in Hs; apply andb_prop in Hs as [Hc Hs].
  destruct c; simpl; auto.
  simpl in Hc; apply andb_prop in Hc as [Hc _].
  rewrite (fresh_neq n o _ Ho Hc); auto.
Qed.

Lemma entry_of_fresh (n : nat) (o : node) (p : plug) :
  n <= o -> Nat.ltb (fst p) n = true -> entry_of o p = [].
Proof.
  intros Ho Hp; unfold entry_of; destruct (snd p); trivial.
  now rewrite (fresh_neq n o _ Ho Hp).
Qed.

Lemma stops_fresh (n : nat) (s : scene) (o : node) :
  below n s = true -> n <= o -> stops s o = [].
Proof.
  intros Hs Ho; induction s as [| c s IH]; trivial.
  simpl in Hs; apply andb_prop in Hs as [Hc Hs].
  simpl; rewrite IH by trivial; simpl.
  destruct c; simpl in *; trivial.
  - apply andb_prop in Hc as [Hc _]; now apply (entry_of_fresh n).
  - apply andb_prop in Hc as [Hc Hc']; apply andb_prop in Hc' as [Hc' _].
    now rewrite !(entry_of_fresh n).
Qed.

Lemma declared_fresh (n : nat) (s : scene) (o : node) :
  below n s = true -> n <= o -> declared s o = [].
Proof.
  intros Hs Ho; induction s as [| c s IH]; trivial.
  simpl in Hs; apply andb_prop in Hs as [Hc Hs].
  destruct c; simpl; auto.
  simpl in Hc; apply andb_prop in Hc as [Hc _].
  rewrite (fresh_neq n o _ Ho Hc); auto.
Qed.

(** ** Renumbering *)

Lemma up_eqb (n a b : node) : Nat.eqb (up n a) (up n b) = Nat.eqb a b.
Proof.
  unfold up; destruct (Nat.eqb_spec a b) as [-> | Hab].
  - apply Nat.eqb_refl.
  - apply Nat.eqb_neq; lia.
Qed.

Lemma up_ge (n o : node) : n <= up n o.
Proof. unfold up; lia. Qed.

Lemma plug_eqb_shift (n : nat) (p q : plug) :
  plug_eqb (shift_plug n p) (shift_plug n q) = plug_eqb p q.
Proof. unfold plug_eqb; simpl; now rewrite up_eqb. Qed.

Lemma node_count_app (s1 s2 : scene) :
  node_count (s1 ++ s2) = node_count s1 + node_count s2.
Proof.
  induction s1 as [| c s1 IH]; simpl; trivial.
  rewrite IH; lia.
Qed.

Lemma created_shift (n : nat) (c : call) :
  created (shift_call n c) = created c.
Proof. now destruct c. Qed.

Lemma node_count_shift (n : nat) (s : scene) :
  node_count (shift n s) = node_count s.
Proof.
  induction s as [| c s IH]; simpl; trivial.
  now rewrite created_shift, IH.
Qed.

Lemma node_count_moved (n : nat) (d s0 : scene) :
  node_count s0 = n -> node_count (shift n d ++ s0) = up n (node_count d).
Proof.
  intros <-; now rewrite node_count_app, node_count_shift.
Qed.

Lemma new_nodes_shift (n : nat) (c : call) (base : node) :
  new_nodes (shift_call n c) (up n base)
  = map (shift_info n) (new_nodes c base).
Proof. destruct c as [| | | [] | | | | | |]; reflexivity. Qed.

Lemma find_id_shift (n : nat) (o : node) (l : list node_info) :
  find (fun i => Nat.eqb (node_id i) (up n o)) (map (shift_info n) l)
  = option_map (shift_info n) (find (fun i => Nat.eqb (node_id i) o) l).
Proof.
  induction l as [| i l IH]; simpl; trivial.
  rewrite up_eqb; now destruct (Nat.eqb (node_id i) o).
Qed.

Lemma find_id_above (c : call) (base o : node) :
  created c + base <= o ->
  find (fun i => Nat.eqb (node_id i) o) (new_nodes c base) = None.
Proof.
  intros Ho.
  destruct c as [| | | [] | | | | | |]; simpl in Ho;
    cbv [new_nodes find app node_id]; trivial;
    repeat match goal with
           | |- context [Nat.eqb ?a o] =>
               replace (Nat.eqb a o) with false
                 by (symmetry; apply Nat.eqb_neq; lia)
           end; trivial.
Qed.

Lemma info_of_fresh (s : scene) (o : node) :
  node_count s <= o -> info_of s o = None.
Proof.
  induction s as [| c s IH]; simpl; trivial; intros Ho.
  rewrite find_id_above by lia. apply IH; lia.
Qed.

Lemma parent_of_cons (c : call) (s : scene) (o : node) :
  parent_of (c :: s) o =
  let made := match find (fun i => Nat.eqb (node_id i) o)
                         (new_nodes c (node_count s)) with
              | Some i => node_parent i
              | None => parent_of s o
              end in
  match c with
  | Parent child par => if Nat.eqb child o then Some par else parent_of s o
  | _ => made
  end.
Proof. now destruct c. Qed.

Lemma parent_of_fresh (n : nat) (s : scene) (o : node) :
  below n s = true -> n <= o -> node_count s <= o -> parent_of s o = None.
Proof.
  intros Hs Hn; induction s as [| c s IH]; trivial; intros Ho.
  simpl in Hs; apply andb_prop in Hs as [Hc Hs]; simpl in Ho.
  assert (E : find (fun i => Nat.eqb (node_id i) o)
                   (new_nodes c (node_count s)) = None)
    by (apply find_id_above; lia).
  assert (IH' : parent_of s o = None) by (apply IH; trivial; lia).
  destruct c; simpl in *; rewrite ?E; trivial.
  apply andb_prop in Hc as [Hc _].
  now rewrite (fresh_neq n o _ Hn Hc).
Qed.

Lemma shapes_under_fresh (n : nat) (c : call) (base o : node) :
  forallb (fun x => Nat.ltb x n) (mentions c) = true ->
  n <= o -> created c + base <= o -> shapes_under c base o = [].
Proof.
  intros Hc Hn Ho; unfold shapes_under.
  destruct c as [ty nm [p |] | | | [] | | | | | |]; simpl in *; trivial;
    try (now destruct (is_shape ty));
    try (replace (Nat.eqb base o) with false
          by (symmetry; apply Nat.eqb_neq; lia); trivial).
  apply andb_prop in Hc as [Hc _].
  rewrite (fresh_neq n o _ Hn Hc). now destruct (is_shape ty).
Qed.

Lemma shape_of_fresh (n : nat) (s : scene) (o : node) :
  below n s = true -> n <= o -> node_count s <= o -> shape_of s o = None.
Proof.
  intros Hs Hn; induction s as [| c s IH]; trivial; intros Ho.
  simpl in Hs; apply andb_prop in Hs as [Hc Hs]; simpl in Ho.
  simpl. rewrite IH by (trivial; lia).
  now rewrite (shapes_under_fresh n) by (trivial; lia).
Qed.

Lemma shapes_under_shift (n : nat) (c : call) (base o : node) :
  shapes_under (shift_call n c) (up n base) (up n o)
  = map (up n) (shapes_under c base o).
Proof.
  unfold shapes_under; rewrite new_nodes_shift.
  induction (new_nodes c base) as [| i l IH]; simpl; trivial.
  replace (match option_map (up n) (node_parent i) with
           | Some p => Nat.eqb p (up n o)
           | None => false
           end)
    with (match node_parent i with
          | Some p => Nat.eqb p o
          | None => false
          end)
    by (destruct (node_parent i); simpl; now rewrite ?up_eqb).
  destruct (is_shape (node_type i) && _); simpl; now rewrite IH.
Qed.

Section Moved.
Variables (n : nat) (s0 : scene).
Hypothesis Hn : node_count s0 = n.
Hypothesis Hs : below n s0 = true.

Lemma shape_of_moved (d : scene) (o : node) :
  shape_of (shift n d ++ s0) (up n o) = option_map (up n) (shape_of d o).
Proof.
  induction d as [| c d IH]; simpl.
  - apply (shape_of_fresh n); trivial; [apply up_ge | rewrite Hn; apply up_ge].
  - rewrite IH, node_count_moved, shapes_under_shift by trivial.
    destruct (shape_of d o); simpl; trivial.
    now destruct (shapes_under c (node_count d) o).
Qed.

Lemma answer_moved (c : call) (d : scene) :
  answer (shift_call n c) (shift n d ++ s0) = shift_val n (answer c d).
Proof.
  destruct c as [| | | [] | | | | | |]; simpl;
    rewrite ?node_count_moved, ?shape_of_moved by trivial; trivial.
  now destruct (shape_of d o).
Qed.

Lemma commit_moved (c : call) (d : scene) :
  commit (shift_call n c) (shift n d ++ s0) = shift n (commit c d) ++ s0.
Proof. now destruct c. Qed.

(** The run of a moved script on the scene [s0], continued from the
    moved journal, is the moved run. *)
Lemma moved_run {A : Type} (sh : A -> A) (p q : prog A) :
  moved n sh p q ->
  forall d,
    run willing q (shift n d ++ s0)
    = (map_result sh (fst (run willing p d)),
       shift n (snd (run willing p d)) ++ s0).
Proof.
  induction 1 as [a | e | c k k' Hk IH]; intros d; simpl; trivial.
  rewrite answer_moved, commit_moved. apply IH.
Qed.

Lemma incoming_moved (d : scene) (p : plug) :
  incoming (shift n d ++ s0) (shift_plug n p)
  = map (shift_plug n) (incoming d p).
Proof.
  induction d as [| c d IH]; simpl.
  - destruct p as [o a]; apply (incoming_fresh n); trivial; apply up_ge.
  - destruct c; simpl; trivial.
    rewrite plug_eqb_shift, IH.
    destruct (plug_eqb dst p); trivial.
    now rewrite map_app.
Qed.

Lemma assignments_moved (d : scene) (p : plug) :
  assignments (shift n d ++ s0) (shift_plug n p) = assignments d p.
Proof.
  induction d as [| c d IH]; simpl.
  - destruct p as [o a]; apply (assignments_fresh n); trivial; apply up_ge.
  - destruct c; simpl; trivial.
    rewrite plug_eqb_shift, IH.
    now destruct (plug_eqb p0 p).
Qed.

Lemma assigned_moved (d : scene) (p : plug) :
  assigned (shift n d ++ s0) (shift_plug n p) = assigned d p.
Proof. unfold assigned; now rewrite assignments_moved. Qed.

Lemma declared_moved (d : scene) (o : node) :
  declared (shift n d ++ s0) (up n o) = declared d o.
Proof.
  induction d as [| c d IH]; simpl.
  - apply (declared_fresh n); trivial; apply up_ge.
  - destruct c; simpl; trivial.
    rewrite up_eqb, IH.
    now destruct (Nat.eqb o0 o).
Qed.

Lemma inputs_moved (d : scene) (o : node) :
  inputs (shift n d ++ s0) (up n o)
  = map (fun c => (fst c, shift_plug n (snd c))) (inputs d o).
Proof.
  induction d as [| c d IH]; simpl.
  - apply (inputs_fresh n); trivial; apply up_ge.
  - destruct c; simpl; trivial.
    rewrite up_eqb, IH.
    destruct (Nat.eqb (fst dst) o); trivial.
    now rewrite map_app.
Qed.

Lemma attrs_set_moved (d : scene) (o : node) :
  attrs_set (shift n d ++ s0) (up n o) = attrs_set d o.
Proof.
  induction d as [| c d IH]; simpl.
  - apply (attrs_set_fresh n); trivial; apply up_ge.
  - destruct c; simpl; trivial.
    rewrite up_eqb, IH.
    now destruct (Nat.eqb (fst p) o).
Qed.

Lemma entry_of_shift (o : node) (p : plug) :
  entry_of (up n o) (shift_plug n p) = entry_of o p.
Proof.
  unfold entry_of; simpl; destruct (snd p); trivial.
  now rewrite up_eqb.
Qed.

Lemma stops_moved (d : scene) (o : node) :
  stops (shift n d ++ s0) (up n o) = stops d o.
Proof.
  induction d as [| c d IH]; simpl.
  - apply (stops_fresh n); trivial; apply up_ge.
  - rewrite IH; f_equal.
    destruct c; simpl; trivial; now rewrite !entry_of_shift.
Qed.

Lemma stop_indices_moved (d : scene) (o : node) :
  stop_indices (shift n d ++ s0) (up n o) = stop_indices d o.
Proof. unfold stop_indices; now rewrite stops_moved. Qed.

Lemma stop_colors_moved (d : scene) (o : node) :
  stop_colors (shift n d ++ s0) (up n o) = stop_colors d o.
Proof.
  unfold stop_colors; rewrite stop_indices_moved.
  apply map_ext; intros i.
  apply (assigned_moved d (o, colorEntryList i ["color"])).
Qed.

Lemma stop_color_paths_moved (d : scene) (o : node) :
  stop_color_paths (shift n d ++ s0) (up n o) = stop_color_paths d o.
Proof.
  unfold stop_color_paths; rewrite stop_indices_moved.
  apply map_ext; intros i.
  f_equal; apply (assignments_moved d (o, colorEntryList i ["color"])).
Qed.

Lemma negative_stops_moved (d : scene) (o : node) :
  negative_stops (shift n d ++ s0) (up n o) = negative_stops d o.
Proof.
  unfold negative_stops; rewrite stop_indices_moved.
  apply filter_ext; intros i.
  change (up n o, colorEntryList i ["color"])
    with (shift_plug n (o, colorEntryList i ["color"])).
  now rewrite assigned_moved.
Qed.

Lemma shades_of_moved (d : scene) (o : node) (order : list nat) :
  shades_of (shift n d ++ s0) (up n o) order = shades_of d o order.
Proof.
  unfold shades_of; apply map_ext; intros i.
  change (up n o, colorEntryList i ["color"])
    with (shift_plug n (o, colorEntryList i ["color"])).
  now rewrite assigned_moved.
Qed.

Lemma settable_moved (d : scene) (p : plug) :
  settable (shift n d ++ s0) (shift_plug n p) = settable d p.
Proof.
  unfold settable; rewrite incoming_moved.
  now destruct (incoming d p).
Qed.

Lemma info_of_moved (d : scene) (o : node) :
  info_of (shift n d ++ s0) (up n o)
  = option_map (shift_info n) (info_of d o).
Proof.
  induction d as [| c d IH]; simpl.
  - apply info_of_fresh; rewrite Hn; apply up_ge.
  - rewrite node_count_moved, new_nodes_shift, find_id_shift, IH by trivial.
    now destruct (find _ (new_nodes c (node_count d))).
Qed.

Lemma type_of_moved (d : scene) (o : node) :
  type_of (shift n d ++ s0) (up n o) = type_of d o.
Proof.
  unfold type_of; rewrite info_of_moved; now destruct (info_of d o).
Qed.

Lemma parent_of_moved (d : scene) (o : node) :
  parent_of (shift n d ++ s0) (up n o) = option_map (up n) (parent_of d o).
Proof.
  induction d as [| c d IH].
  - simpl; apply (parent_of_fresh n); trivial;
      [apply up_ge | rewrite Hn; apply up_ge].
  - cbn [shift map app]; fold (shift n d); rewrite !parent_of_cons.
    rewrite node_count_moved, new_nodes_shift, find_id_shift, IH by trivial.
    destruct c; cbn [shift_call]; rewrite ?up_eqb;
      try (now destruct (find _ _));
      try (now destruct (Nat.eqb child o)).
Qed.

Lemma nodes_moved (d : scene) :
  nodes (shift n d ++ s0) = nodes s0 ++ map (shift_info n) (nodes d).
Proof.
  induction d as [| c d IH]; simpl.
  - now rewrite app_nil_r.
  - rewrite IH, node_count_moved, new_nodes_shift, map_app by trivial.
    now rewrite app_assoc.
Qed.
End Moved.

(** ** The builder names no node but its own *)

Lemma moved_bind (n : nat) {A B : Type} (sa : A -> A) (sb : B -> B)
      (m m' : prog A) (f f' : A -> prog B) :
  moved n sa m m' ->
  (forall a, moved n sb (f a) (f' (sa a))) ->
  moved n sb (bind m f) (bind m' f').
Proof.
  intros Hm Hf; induction Hm as [a | e | c k k' Hk IH]; simpl.
  - apply Hf.
  - apply moved_throw.
  - apply moved_call; intros v; apply IH.
Qed.

(** One step of a script against its moved self: a call, whatever it
    answers; a return; a raise; or, where the script takes the answer
    apart, the cases of the answer. *)
Ltac moved_step :=
  match goal with
  | |- moved ?n ?sh ?p ?q =>
      let p' := eval hnf in p in
      let q' := eval hnf in q in
      change (moved n sh p' q')
  end;
  lazymatch goal with
  | |- moved ?n ?sh (Throw _) _ => apply moved_throw
  | |- moved ?n ?sh (Ret ?a) _ => exact (moved_ret n sh a)
  | |- moved ?n ?sh (Call ?c ?k) (Call _ ?k') =>
      apply (moved_call n sh c k k'); intros ?
  | |- _ =>
      match goal with
      | v : pyval |- _ => destruct v as [| ? | [| ? ?]]
      end
  end.

Section BuilderMoved.
Variable n : nat.
Import UVBasedPoseReader.

Lemma _basic_setup_moved (self : self_t) :
  moved n (shift_self n) (_basic_setup self)
        (_basic_setup (shift_self n self)).
Proof. destruct self; repeat moved_step. Qed.

Lemma _target_setup_moved (self : self_t) :
  moved n (shift_self n) (_target_setup self)
        (_target_setup (shift_self n self)).
Proof.
  destruct self as [? ? ? ? ? [pos |] ? ? ? ?]; repeat moved_step.
Qed.

Lemma _visualizer_setup_moved (self : self_t) :
  moved n (shift_self n) (_visualizer_setup self)
        (_visualizer_setup (shift_self n self)).
Proof.
  destruct self as [? ? ? ? ? ? [rmp |] ? ? [sph |]]; repeat moved_step.
Qed.

Lemma setup_moved (self : self_t) :
  moved n (shift_self n) (setup self) (setup (shift_self n self)).
Proof.
  unfold setup.
  apply (moved_bind n (shift_self n)); [apply _basic_setup_moved |].
  intros self1.
  apply (moved_bind n (shift_self n)); [apply _target_setup_moved |].
  intros self2.
  replace (with_visualizer (shift_self n self2))
    with (with_visualizer self2) by now destruct self2.
  destruct (with_visualizer self2).
  - apply _visualizer_setup_moved.
  - apply moved_ret.
Qed.

Lemma __init___moved (name : option string) (cone_angle : option Q)
      (with_visualizer : option bool) :
  moved n (shift_self n) (__init__ name cone_angle with_visualizer)
        (__init__ name cone_angle with_visualizer).
Proof. apply setup_moved. Qed.
End BuilderMoved.

(** A script that names no node but its own, when it returns, on whatever
    host and from whatever well-formed scene, has left the journal of its
    run on the empty scene, moved up by the number of nodes the scene had,
    on top of the scene it found. *)
Lemma moved_ok {A : Type} (h : host) (sh : A -> A) (p : prog A)
      (s0 s' : scene) (a : A) :
  moved (node_count s0) sh p p ->
  scene_ok s0 = true ->
  run h p s0 = (Ok a, s') ->
  exists a0 d0,
    run willing p [] = (Ok a0, d0)
    /\ a = sh a0
    /\ s' = shift (node_count s0) d0 ++ s0.
Proof.
  intros Hp Hok H; apply run_ok_willing in H.
  pose proof (moved_run (node_count s0) s0 eq_refl Hok _ _ _ Hp []) as M.
  change (shift (node_count s0) [] ++ s0) with s0 in M; rewrite H in M.
  destruct (run willing _ []) as [[a0 | e] d0] eqn:E;
    cbn [fst snd map_result] in M.
  - injection M as -> ->. exists a0, d0; repeat split.
  - discriminate.
Qed.

Lemma build_on (h : host) (name : option string) (cone_angle : option Q)
      (with_visualizer : option bool) (s0 s' : scene)
      (self : UVBasedPoseReader.self_t) :
  scene_ok s0 = true ->
  run h (UVBasedPoseReader.__init__ name cone_angle with_visualizer) s0
  = (Ok self, s') ->
  exists self0 d0,
    run willing (UVBasedPoseReader.__init__ name cone_angle with_visualizer)
        [] = (Ok self0, d0)
    /\ self = shift_self (node_count s0) self0
    /\ s' = shift (node_count s0) d0 ++ s0.
Proof. intros Hok H; eapply moved_ok; eauto using __init___moved. Qed.

Lemma basic_on (h : host) (name : string) (cone_angle : Q)
      (with_visualizer : bool) (s0 s' : scene)
      (self : UVBasedPoseReader.self_t) :
  scene_ok s0 = true ->
  run h (UVBasedPoseReader._basic_setup
           (UVBasedPoseReader.blank name cone_angle with_visualizer)) s0
  = (Ok self, s') ->
  exists self0 d0,
    run willing (UVBasedPoseReader._basic_setup
                   (UVBasedPoseReader.blank name cone_angle with_visualizer))
        [] = (Ok self0, d0)
    /\ self = shift_self (node_count s0) self0
    /\ s' = shift (node_count s0) d0 ++ s0.
Proof.
  intros Hok H; eapply moved_ok; eauto.
  apply (_basic_setup_moved (node_count s0)
           (UVBasedPoseReader.blank name cone_angle with_visualizer)).
Qed.

Section EvalMoved.
Variables (n : nat) (s0 : scene).
Hypothesis Hn : node_count s0 = n.
Hypothesis Hs : below n s0 = true.

Lemma is_node_moved (d : scene) (o : node) (ty : string) :
  is_node (shift n d ++ s0) (up n o) ty = is_node d o ty.
Proof. unfold is_node; now rewrite (type_of_moved n s0 Hn). Qed.

Lemma default_of_moved (d : scene) (p : plug) :
  default_of (shift n d ++ s0) (shift_plug n p) = default_of d p.
Proof.
  destruct p as [o [a | a i path]]; unfold default_of; simpl; trivial.
  now rewrite (declared_moved n s0 Hs).
Qed.

(** Values read off the moved graph are the values read off the graph. *)
Lemma eval_moved (fuel : nat) (d : scene) (env : plug -> option Q)
      (p : plug) :
  eval fuel (shift n d ++ s0) env (shift_plug n p)
  = eval fuel d (fun q => env (shift_plug n q)) p.
Proof.
  revert p; induction fuel as [| fuel IH]; intros p; trivial.
  cbn [eval].
  rewrite (incoming_moved n s0 Hs).
  destruct (incoming d p) as [| src srcs]; cbn [map]; [| apply IH].
  destruct p as [o a]; cbn [shift_plug fst snd].
  rewrite !is_node_moved.
  change (up n o, a) with (shift_plug n (o, a)).
  rewrite (assigned_moved n s0 Hs), default_of_moved.
  repeat match goal with
         | |- context [eval fuel (shift n d ++ s0) env (up n o, Attr ?x)] =>
             change (up n o, Attr x) with (shift_plug n (o, Attr x));
             rewrite (IH (o, Attr x))
         end.
  reflexivity.
Qed.
End EvalMoved.

(** On the willing host the build returns, whatever its arguments. *)
Lemma build_returns (name : option string) (cone_angle : option Q)
      (with_visualizer : option bool) (s0 : scene) :
  scene_ok s0 = true ->
  exists self s',
    run willing (UVBasedPoseReader.__init__ name cone_angle with_visualizer)
        s0 = (Ok self, s').
Proof.
  intros Hok.
  pose proof (moved_run (node_count s0) s0 eq_refl Hok _ _ _
                (__init___moved (node_count s0) name cone_angle
                                with_visualizer) []) as M.
  change (shift (node_count s0) [] ++ s0) with s0 in M; rewrite M.
  assert (E : exists self0,
             fst (run willing (UVBasedPoseReader.__init__
                                 name cone_angle with_visualizer) [])
             = Ok self0)
    by (destruct name, cone_angle, with_visualizer as [[] |];
        vm_compute; eexists; reflexivity).
  destruct E as [self0 ->]; cbn [map_result]; do 2 eexists; reflexivity.
Qed.

(** ** The graph the builder leaves *)

(** Bring a statement about the built scene back to the journal of the
    build on the empty scene. *)
Ltac to_origin Hok :=
  repeat match goal with
         | |- context [(up ?n ?o, ?a)] =>
             change (up n o, a) with (shift_plug n (o, a))
         end;
  rewrite ?(incoming_moved _ _ Hok), ?(settable_moved _ _ Hok),
    ?(assigned_moved _ _ Hok), ?(assignments_moved _ _ Hok),
    ?(declared_moved _ _ Hok), ?(attrs_set_moved _ _ Hok),
    ?(inputs_moved _ _ Hok),
    ?(stop_indices_moved _ _ Hok), ?(stop_colors_moved _ _ Hok),
    ?(stop_color_paths_moved _ _ Hok), ?(negative_stops_moved _ _ Hok),
    ?(type_of_moved _ _ eq_refl), ?(parent_of_moved _ _ eq_refl Hok),
    ?(eval_moved _ _ eq_refl Hok).

(** From a run that returned to the journal it left. *)
Ltac journal_of H Hok :=
  let self0 := fresh "self0" in
  let d0 := fresh "d0" in
  let E := fresh "E" in
  first [ destruct (build_on _ _ _ _ _ _ _ Hok H)
            as (self0 & d0 & E & -> & ->)
        | destruct (basic_on _ _ _ _ _ _ _ Hok H)
            as (self0 & d0 & E & -> & ->) ];
  clear H; vm_compute in E; injection E as <- <-.

Ltac settle Hok := to_origin Hok; vm_compute; repeat split.

Lemma remap_cone_angle (ca : Q) :
  (remap ca 0 180 1 (1 # 2) == 1 - ca / 360)%Q.
Proof. unfold remap; field. Qed.

Lemma remap_at_max (ca : Q) :
  (ca == 180 -> remap ca 0 180 1 (1 # 2) == 1 # 2)%Q.
Proof. intros H; rewrite remap_cone_angle, H; reflexivity. Qed.

Lemma remap_at_min (ca : Q) :
  (ca == 0 -> remap ca 0 180 1 (1 # 2) == 1)%Q.
Proof. intros H; rewrite remap_cone_angle, H; reflexivity. Qed.

(** C1. Whatever the name, the cone angle and the visualizer flag, a build
    that returns has left a remapValue node with inputMin 0, inputMax 180,
    outputMin 1 and outputMax 0.5, fed by the info node's coneAngle, whose
    outValue drives the position of ramp stop 0 and feeds a reverse node
    whose outputX drives the position of ramp stop 3.  The two positions
    then evaluate to [remap cone_angle 0 180 1 0.5] and its complement:
    0.5 and 0.5 for a cone angle of 180, 1 and 0 for a cone angle of 0. *)
Theorem C1_cone_angle_drives_boundaries
        (h : host) (name : string) (ca : Q) (vis : bool)
        (s0 s' : scene) (self : UVBasedPoseReader.self_t) :
  scene_ok s0 = true ->
  run h (UVBasedPoseReader.__init__ (Some name) (Some ca) (Some vis)) s0
  = (Ok self, s') ->
  exists info ramp rmv rvs,
    UVBasedPoseReader.info_node self = Some info
    /\ UVBasedPoseReader.ramp self = Some ramp
    /\ type_of s' rmv = Some "remapValue"
    /\ type_of s' rvs = Some "reverse"
    /\ assigned s' (rmv, Attr "inputMin") = Some (Num 0)
    /\ assigned s' (rmv, Attr "inputMax") = Some (Num 180)
    /\ assigned s' (rmv, Attr "outputMin") = Some (Num 1)
    /\ assigned s' (rmv, Attr "outputMax") = Some (Num (1 # 2))
    /\ incoming s' (rmv, Attr "inputValue") = [(info, Attr "coneAngle")]
    /\ incoming s' (ramp, colorEntryList 0 ["position"])
       = [(rmv, Attr "outValue")]
    /\ incoming s' (rvs, Attr "inputX") = [(rmv, Attr "outValue")]
    /\ incoming s' (ramp, colorEntryList 3 ["position"])
       = [(rvs, Attr "outputX")]
    /\ forall (env : plug -> option Q) (fuel : nat),
        6 <= fuel ->
        exists p0 p3 : Q,
          eval fuel s' env (ramp, colorEntryList 0 ["position"]) = Some p0
          /\ eval fuel s' env (ramp, colorEntryList 3 ["position"])
             = Some p3
          /\ (p0 == remap ca 0 180 1 (1 # 2))%Q
          /\ (p3 == reverse p0)%Q
          /\ (ca == 180 -> p0 == 1 # 2 /\ p3 == 1 # 2)%Q
          /\ (ca == 0 -> p0 == 1 /\ p3 == 0)%Q.
Proof.
  intros Hok H.
  assert (V : forall p0 : Q,
             (p0 == remap ca 0 180 1 (1 # 2))%Q ->
             (ca == 180 -> p0 == 1 # 2 /\ reverse p0 == 1 # 2)%Q
             /\ (ca == 0 -> p0 == 1 /\ reverse p0 == 0)%Q).
  { intros p0 E; unfold reverse; split; intros Hca; rewrite E.
    - rewrite (remap_at_max ca Hca); split; reflexivity.
    - rewrite (remap_at_min ca Hca); split; reflexivity. }
  destruct vis; journal_of H Hok;
    exists (up (node_count s0) 0), (up (node_count s0) 5),
           (up (node_count s0) 6), (up (node_count s0) 7);
    (do 12 (split; [now settle Hok |]));
    intros env fuel Hfuel;
    destruct fuel as [| [| [| [| [| [| fuel]]]]]]; try lia;
    exists (remap ca 0 180 1 (1 # 2)),
           (reverse (remap ca 0 180 1 (1 # 2)));
    (split; [to_origin Hok; vm_compute; reflexivity |]);
    (split; [to_origin Hok; vm_compute; reflexivity |]);
    (split; [reflexivity |]); (split; [reflexivity |]);
    apply V; reflexivity.
Qed.

(** C2. After [_basic_setup], and still after the whole build, the ramp's
    outColorR is connected into the info node's outValue, and that is the
    one connection into the info node: outValue is computed by the host
    and cannot be set, coneAngle (and visualize) can. *)
Theorem C2_outValue_is_the_output
        (h : host) (name : string) (ca : Q) (vis : bool)
        (s0 s' : scene) (self : UVBasedPoseReader.self_t) :
  scene_ok s0 = true ->
  run h (UVBasedPoseReader._basic_setup
           (UVBasedPoseReader.blank name ca vis)) s0 = (Ok self, s')
  \/ run h (UVBasedPoseReader.__init__ (Some name) (Some ca) (Some vis)) s0
     = (Ok self, s') ->
  exists info ramp,
    UVBasedPoseReader.info_node self = Some info
    /\ UVBasedPoseReader.ramp self = Some ramp
    /\ type_of s' ramp = Some "ramp"
    /\ incoming s' (info, Attr "outValue") = [(ramp, Attr "outColorR")]
    /\ inputs s' info = [(Attr "outValue", (ramp, Attr "outColorR"))]
    /\ settable s' (info, Attr "outValue") = false
    /\ settable s' (info, Attr "coneAngle") = true
    /\ settable s' (info, Attr "visualize") = true.
Proof.
  intros Hok [H | H]; [| destruct vis]; journal_of H Hok;
    exists (up (node_count s0) 0), (up (node_count s0) 5);
    now settle Hok.
Qed.

(** C3. The info node of every build carries exactly three added
    attributes: outValue, numeric, from -1 to 1; coneAngle, numeric, from
    0 to 180, with the cone_angle argument as default; visualize, a
    boolean with default 1 (true). *)
Theorem C3_info_node_attributes
        (h : host) (name : string) (ca : Q) (vis : bool)
        (s0 s' : scene) (self : UVBasedPoseReader.self_t) :
  scene_ok s0 = true ->
  run h (UVBasedPoseReader.__init__ (Some name) (Some ca) (Some vis)) s0
  = (Ok self, s') ->
  exists info,
    UVBasedPoseReader.info_node self = Some info
    /\ type_of s' info = Some "transform"
    /\ declared s' info
       = [ ("outValue",
            {| decl_at := None; decl_min := Some (-1)%Q;
               decl_max := Some 1%Q; decl_dv := None; decl_k := true |});
           ("coneAngle",
            {| decl_at := None; decl_min := Some 0%Q;
               decl_max := Some 180%Q; decl_dv := Some ca;
               decl_k := true |});
           ("visualize",
            {| decl_at := Some "bool"; decl_min := None;
               decl_max := None; decl_dv := Some 1%Q; decl_k := true |}) ].
Proof.
  intros Hok H; destruct vis; journal_of H Hok;
    exists (up (node_count s0) 0); now settle Hok.
Qed.

(** C5. The sampler's parameterU goes into input1 of a multDoubleLinear
    node whose input2 is set to 0.25, and the node's output goes into the
    ramp's uCoord: whatever value [u] the host computes for parameterU,
    uCoord evaluates to [u * 0.25]. *)
Theorem C5_sampling_chain
        (h : host) (name : string) (ca : Q) (vis : bool)
        (s0 s' : scene) (self : UVBasedPoseReader.self_t) :
  scene_ok s0 = true ->
  run h (UVBasedPoseReader.__init__ (Some name) (Some ca) (Some vis)) s0
  = (Ok self, s') ->
  exists sampler ramp mdl,
    UVBasedPoseReader.point_on_surface self = Some sampler
    /\ UVBasedPoseReader.ramp self = Some ramp
    /\ type_of s' sampler = Some "closestPointOnSurface"
    /\ type_of s' mdl = Some "multDoubleLinear"
    /\ incoming s' (mdl, Attr "input1") = [(sampler, Attr "parameterU")]
    /\ assignments s' (mdl, Attr "input2") = [(pymel, Num (1 # 4))]
    /\ incoming s' (mdl, Attr "input2") = []
    /\ incoming s' (ramp, Attr "uCoord") = [(mdl, Attr "output")]
    /\ forall (env : plug -> option Q) (u : Q) (fuel : nat),
        env (sampler, Attr "parameterU") = Some u ->
        4 <= fuel ->
        eval fuel s' env (ramp, Attr "uCoord") = Some (u * (1 # 4))%Q.
Proof.
  intros Hok H; destruct vis; journal_of H Hok;
    exists (up (node_count s0) 3), (up (node_count s0) 5),
           (up (node_count s0) 4);
    (do 8 (split; [now settle Hok |]));
    intros env u fuel Hu Hfuel;
    destruct fuel as [| [| [| [| fuel]]]]; try lia;
    to_origin Hok;
    set (env' := fun q => env (shift_plug (node_count s0) q));
    change (env' (3, Attr "parameterU") = Some u) in Hu;
    clearbody env'; vm_compute in Hu; vm_compute;
    now rewrite Hu.
Qed.

(** C7. Whatever the name and the cone angle, the pose transform is
    created under the driver transform, the driver under the info node,
    and the one value set on the pose transform is tx = 1; nothing is
    connected into it. *)
Theorem C7_pose_offset
        (h : host) (name : string) (ca : Q) (vis : bool)
        (s0 s' : scene) (self : UVBasedPoseReader.self_t) :
  scene_ok s0 = true ->
  run h (UVBasedPoseReader.__init__ (Some name) (Some ca) (Some vis)) s0
  = (Ok self, s') ->
  exists info driver pose,
    UVBasedPoseReader.info_node self = Some info
    /\ UVBasedPoseReader.driver self = Some driver
    /\ UVBasedPoseReader.pose self = Some pose
    /\ type_of s' driver = Some "transform"
    /\ type_of s' pose = Some "transform"
    /\ parent_of s' driver = Some info
    /\ parent_of s' pose = Some driver
    /\ attrs_set s' pose = [(Attr "tx", Num 1)]
    /\ assignments s' (pose, Attr "tx") = [(pymel, Num 1)]
    /\ inputs s' pose = [].
Proof.
  intros Hok H; destruct vis; journal_of H Hok;
    exists (up (node_count s0) 0), (up (node_count s0) 8),
           (up (node_count s0) 10);
    now settle Hok.
Qed.

(** C4. The core ramp has exactly the four stops 0 to 3.  In the order
    the positions are listed, they are: stop 2, set at position 0; stop
    0, whose position is driven by the remap node; stop 1, set at
    position 1; stop 3, whose position is driven by the reverse node.
    In that order the colours are (-1, -1, -1), black, white, black:
    white and black alternate, the first white negated, which makes the
    gradient signed.  Stop 2 is the one stop with a negative colour, and
    its colour is the one set through maya.cmds; every other stop colour,
    and both set positions, go through pymel. *)
Theorem C4_core_ramp_stops
        (h : host) (name : string) (ca : Q) (vis : bool)
        (s0 s' : scene) (self : UVBasedPoseReader.self_t) :
  scene_ok s0 = true ->
  run h (UVBasedPoseReader.__init__ (Some name) (Some ca) (Some vis)) s0
  = (Ok self, s') ->
  exists ramp rmv rvs,
    UVBasedPoseReader.ramp self = Some ramp
    /\ type_of s' ramp = Some "ramp"
    /\ type_of s' rmv = Some "remapValue"
    /\ type_of s' rvs = Some "reverse"
    /\ stop_indices s' ramp = [0; 1; 2; 3]
    /\ stop_colors s' ramp
       = [ Some (Double3 0 0 0); Some (Double3 1 1 1);
           Some (Double3 (-1) (-1) (-1)); Some (Double3 0 0 0) ]
    /\ negative_stops s' ramp = [2]
    /\ stop_color_paths s' ramp = [[pymel]; [pymel]; [maya_cmds]; [pymel]]
    /\ incoming s' (ramp, colorEntryList 0 ["position"])
       = [(rmv, Attr "outValue")]
    /\ assignments s' (ramp, colorEntryList 0 ["position"]) = []
    /\ incoming s' (ramp, colorEntryList 1 ["position"]) = []
    /\ assignments s' (ramp, colorEntryList 1 ["position"])
       = [(pymel, Num 1)]
    /\ incoming s' (ramp, colorEntryList 2 ["position"]) = []
    /\ assignments s' (ramp, colorEntryList 2 ["position"])
       = [(pymel, Num 0)]
    /\ incoming s' (ramp, colorEntryList 3 ["position"])
       = [(rvs, Attr "outputX")]
    /\ assignments s' (ramp, colorEntryList 3 ["position"]) = []
    /\ shades_of s' ramp [2; 0; 1; 3]
       = [Some White; Some Black; Some White; Some Black]
    /\ alternates (shades_of s' ramp [2; 0; 1; 3]) = true.
Proof.
  intros Hok H; destruct vis; journal_of H Hok;
    exists (up (node_count s0) 5), (up (node_count s0) 6),
           (up (node_count s0) 7);
    rewrite !(shades_of_moved _ _ Hok);
    now settle Hok.
Qed.

(** C6, as the code has it.  Of the four stop positions of the core
    ramp, those of stops 0 and 3 are driven from the info node's
    coneAngle, through the remap node and, for stop 3, the reverse node,
    and cannot be set; those of stops 1 and 2 are set to 1 and to 0, are
    driven by nothing, and can be set. *)
Theorem C6_boundary_stops_are_driven
        (h : host) (name : string) (ca : Q) (vis : bool)
        (s0 s' : scene) (self : UVBasedPoseReader.self_t) :
  scene_ok s0 = true ->
  run h (UVBasedPoseReader.__init__ (Some name) (Some ca) (Some vis)) s0
  = (Ok self, s') ->
  exists info ramp rmv rvs,
    UVBasedPoseReader.info_node self = Some info
    /\ UVBasedPoseReader.ramp self = Some ramp
    /\ stop_indices s' ramp = [0; 1; 2; 3]
    /\ incoming s' (ramp, colorEntryList 0 ["position"])
       = [(rmv, Attr "outValue")]
    /\ incoming s' (ramp, colorEntryList 3 ["position"])
       = [(rvs, Attr "outputX")]
    /\ incoming s' (rvs, Attr "inputX") = [(rmv, Attr "outValue")]
    /\ incoming s' (rmv, Attr "inputValue") = [(info, Attr "coneAngle")]
    /\ settable s' (ramp, colorEntryList 0 ["position"]) = false
    /\ settable s' (ramp, colorEntryList 3 ["position"]) = false
    /\ settable s' (ramp, colorEntryList 1 ["position"]) = true
    /\ settable s' (ramp, colorEntryList 2 ["position"]) = true
    /\ assigned s' (ramp, colorEntryList 1 ["position"]) = Some (Num 1)
    /\ assigned s' (ramp, colorEntryList 2 ["position"]) = Some (Num 0).
Proof.
  intros Hok H; destruct vis; journal_of H Hok;
    exists (up (node_count s0) 0), (up (node_count s0) 5),
           (up (node_count s0) 6), (up (node_count s0) 7);
    now settle Hok.
Qed.

(** C6, where it has every stop position driven: on the build the module
    itself runs, stop 1 is a stop of the core ramp, nothing is connected
    into its position, and the position can be set. *)
Lemma C6_stop_1_is_not_driven :
  let r := run willing module_body [] in
  built UVBasedPoseReader.ramp (fst r) = Some 5
  /\ ~ (forall i : nat,
          In i (stop_indices (snd r) 5) ->
          incoming (snd r) (5, colorEntryList i ["position"]) <> []
          /\ settable (snd r) (5, colorEntryList i ["position"]) = false).
Proof.
  split; [reflexivity |].
  intros A; destruct (A 1) as [_ A1].
  - vm_compute; auto.
  - vm_compute in A1; discriminate.
Qed.

(** C8. A build without the visualizer that returns has added thirteen
    nodes to the scene, none of them a surface shader or a render set
    and one of them only a ramp; and a build with the visualizer from
    the same scene has made the very same calls first, whatever came
    after them: its journal is the other journal with the visualizer's
    calls on top, and its nodes are the same thirteen, with the same
    handles, then the shader, the set, the second ramp and its remap. *)
Theorem C8_without_visualizer
        (h h' : host) (name : string) (ca : Q)
        (s0 s' : scene) (self : UVBasedPoseReader.self_t) :
  scene_ok s0 = true ->
  run h (UVBasedPoseReader.__init__ (Some name) (Some ca) (Some false)) s0
  = (Ok self, s') ->
  exists made,
    nodes s' = nodes s0 ++ made
    /\ map node_type made
       = [ "transform"; "transform"; "nurbsSurface";
           "closestPointOnSurface"; "multDoubleLinear"; "ramp";
           "remapValue"; "reverse"; "transform"; "locator"; "transform";
           "locator"; "decomposeMatrix" ]
    /\ ~ In "surfaceShader" (map node_type made)
    /\ ~ In "shadingEngine" (map node_type made)
    /\ count_occ string_dec (map node_type made) "ramp" = 1
    /\ forall (selfv : UVBasedPoseReader.self_t) (sv : scene),
        run h' (UVBasedPoseReader.__init__ (Some name) (Some ca)
                                           (Some true)) s0
        = (Ok selfv, sv) ->
        exists calls added,
          sv = calls ++ s'
          /\ nodes sv = nodes s' ++ added
          /\ map node_type added
             = ["surfaceShader"; "shadingEngine"; "ramp"; "remapValue"]
          /\ UVBasedPoseReader.info_node selfv
             = UVBasedPoseReader.info_node self
          /\ UVBasedPoseReader.sphere selfv = UVBasedPoseReader.sphere self
          /\ UVBasedPoseReader.point_on_surface selfv
             = UVBasedPoseReader.point_on_surface self
          /\ UVBasedPoseReader.ramp selfv = UVBasedPoseReader.ramp self
          /\ UVBasedPoseReader.driver selfv = UVBasedPoseReader.driver self
          /\ UVBasedPoseReader.pose selfv = UVBasedPoseReader.pose self.
Proof.
  intros Hok H; journal_of H Hok.
  match goal with
  | |- context [shift _ ?d ++ s0] => set (plain := d)
  end.
  exists (map (shift_info (node_count s0)) (nodes plain)).
  split; [apply (nodes_moved _ _ eq_refl) |].
  rewrite map_map.
  split; [reflexivity |].
  split; [vm_compute; intuition discriminate |].
  split; [vm_compute; intuition discriminate |].
  split; [reflexivity |].
  intros selfv sv Hv; journal_of Hv Hok.
  match goal with
  | |- context [shift _ ?d ++ s0 = _] => set (full := d)
  end.
  set (extra := firstn (List.length full - List.length plain) full).
  assert (E : full = extra ++ plain) by (vm_compute; reflexivity).
  exists (shift (node_count s0) extra),
         (map (shift_info (node_count s0))
              (skipn (List.length (nodes plain)) (nodes full))).
  split.
  { rewrite E; unfold shift; now rewrite map_app, app_assoc. }
  split.
  { rewrite !(nodes_moved _ _ eq_refl), <- app_assoc, <- map_app.
    do 2 f_equal; vm_compute; reflexivity. }
  rewrite map_map; repeat split.
Qed.

(** C9. The builder handles no error.  If a build raises, on whatever
    host, the error is the one the host raised for the call it refused,
    as the host raised it; the scene is the scene that call was made on;
    it holds the scene the build started from and, on top, every call
    made before the refusal: it is an initial stretch of the journal the
    unhindered build leaves, cut where the host refused. *)
Theorem C9_errors_propagate
        (h : host) (name : option string) (ca : option Q)
        (vis : option bool) (s0 s' : scene) (e : error) :
  scene_ok s0 = true ->
  run h (UVBasedPoseReader.__init__ name ca vis) s0 = (Err e, s') ->
  (exists c msg, h c s' = Some msg /\ e = HostError msg)
  /\ (exists done, s' = done ++ s0)
  /\ (exists self full rest,
         run willing (UVBasedPoseReader.__init__ name ca vis) s0
         = (Ok self, full)
         /\ full = rest ++ s').
Proof.
  intros Hok H.
  destruct (build_returns name ca vis s0 Hok) as (self & full & R).
  split; [| split].
  - destruct (run_err _ _ _ _ _ H) as [He | He]; trivial.
    rewrite R in He; discriminate.
  - apply (run_grows _ _ _ _ _ H).
  - destruct (run_prefix _ _ _ _ _ H) as [rest P].
    rewrite R in P; exists self, full, rest; auto.
Qed.

(** C10. The constructor is the build: [__init__] is [setup] on the
    instance just filled in.  The module's last statement calls it with
    no argument, that is with the name "UVBasedPoseReader", the cone
    angle 180 and the visualizer; on a willing host the import returns,
    and an import that returns has put one whole rig into the scene:
    sixty-two calls, seventeen nodes. *)
Theorem C10_import_builds_the_default_rig :
  module_body
  = UVBasedPoseReader.__init__ (Some "UVBasedPoseReader") (Some 180%Q)
                               (Some true)
  /\ (forall (name : string) (ca : Q) (vis : bool),
         UVBasedPoseReader.__init__ (Some name) (Some ca) (Some vis)
         = UVBasedPoseReader.setup (UVBasedPoseReader.blank name ca vis))
  /\ (forall s0 : scene,
         scene_ok s0 = true ->
         exists self s', run willing module_body s0 = (Ok self, s'))
  /\ (forall (h : host) (s0 s' : scene) (self : UVBasedPoseReader.self_t),
         scene_ok s0 = true ->
         run h module_body s0 = (Ok self, s') ->
         UVBasedPoseReader.name self = "UVBasedPoseReader"
         /\ UVBasedPoseReader.cone_angle self = 180%Q
         /\ UVBasedPoseReader.with_visualizer self = true
         /\ exists calls made,
             s' = calls ++ s0
             /\ List.length calls = 62
             /\ nodes s' = nodes s0 ++ made
             /\ map node_type made
                = [ "transform"; "transform"; "nurbsSurface";
                    "closestPointOnSurface"; "multDoubleLinear"; "ramp";
                    "remapValue"; "reverse"; "transform"; "locator";
                    "transform"; "locator"; "decomposeMatrix";
                    "surfaceShader"; "shadingEngine"; "ramp";
                    "remapValue" ]).
Proof.
  split; [reflexivity |].
  split; [reflexivity |].
  split; [intros s0 Hok; apply (build_returns None None None s0 Hok) |].
  intros h s0 s' self Hok H; unfold module_body in H; journal_of H Hok.
  do 3 (split; [reflexivity |]).
  match goal with
  | |- context [shift _ ?d ++ s0] => set (full := d)
  end.
  exists (shift (node_count s0) full),
         (map (shift_info (node_count s0)) (nodes full)).
  split; [reflexivity |].
  split; [unfold shift; rewrite length_map; reflexivity |].
  split; [apply (nodes_moved _ _ eq_refl) |].
  rewrite map_map; reflexivity.
Qed.

(** ** The statements at work on concrete builds *)

(** Run the script of the goal, and keep the run as [H]. *)
Ltac run_concrete a s H :=
  match goal with
  | |- exists x y, run ?h ?p ?s0 = (?r x, y) /\ _ =>
      assert (H : exists x y, run h p s0 = (r x, y))
        by (do 2 eexists; vm_compute; reflexivity);
      destruct H as (a & s & H);
      exists a, s; split; [exact H |]
  end.

Lemma C1_witness :
  exists self s',
    run willing module_body [] = (Ok self, s')
    /\ exists ramp p0 p3,
        UVBasedPoseReader.ramp self = Some ramp
        /\ eval 6 s' (fun _ => None) (ramp, colorEntryList 0 ["position"])
           = Some p0
        /\ eval 6 s' (fun _ => None) (ramp, colorEntryList 3 ["position"])
           = Some p3
        /\ (p0 == 1 # 2)%Q /\ (p3 == 1 # 2)%Q.
Proof.
  run_concrete self s' H.
  destruct (C1_cone_angle_drives_boundaries
              willing "UVBasedPoseReader" 180%Q true [] _ _
              eq_refl H)
    as (info & ramp & rmv & rvs & _ & Hr & _ & _ & _ & _ & _ & _ & _ & _
        & _ & _ & Hev).
  destruct (Hev (fun _ => None) 6 (le_n 6))
    as (p0 & p3 & E0 & E3 & _ & _ & Hmax & _).
  destruct (Hmax (Qeq_refl 180%Q)) as [H0 H3].
  exists ramp, p0, p3; repeat split; assumption.
Defined.

Lemma C2_witness :
  exists self s',
    run willing
        (UVBasedPoseReader._basic_setup
           (UVBasedPoseReader.blank "UVBasedPoseReader" 180%Q true))
        busy_scene = (Ok self, s')
    /\ exists info ramp,
        incoming s' (info, Attr "outValue") = [(ramp, Attr "outColorR")]
        /\ settable s' (info, Attr "outValue") = false
        /\ settable s' (info, Attr "coneAngle") = true.
Proof.
  run_concrete self s' H.
  destruct (C2_outValue_is_the_output
              willing "UVBasedPoseReader" 180%Q true busy_scene _ _
              eq_refl (or_introl H))
    as (info & ramp & _ & _ & _ & Hin & _ & Hout & Hcone & _).
  exists info, ramp; repeat split; assumption.
Defined.

Lemma C3_witness :
  exists self s',
    run willing
        (UVBasedPoseReader.__init__ (Some "L_arm") (Some 90%Q) (Some false))
        [] = (Ok self, s')
    /\ exists info,
        UVBasedPoseReader.info_node self = Some info
        /\ map fst (declared s' info) = ["outValue"; "coneAngle"; "visualize"]
        /\ map (fun d => decl_dv (snd d)) (declared s' info)
           = [None; Some 90%Q; Some 1%Q].
Proof.
  run_concrete self s' H.
  destruct (C3_info_node_attributes
              willing "L_arm" 90%Q false [] _ _ eq_refl H)
    as (info & Hi & _ & Hd).
  exists info; rewrite Hd; repeat split; assumption.
Defined.

Lemma C4_witness :
  exists self s',
    run willing module_body [] = (Ok self, s')
    /\ exists ramp,
        UVBasedPoseReader.ramp self = Some ramp
        /\ stop_indices s' ramp = [0; 1; 2; 3]
        /\ negative_stops s' ramp = [2]
        /\ stop_color_paths s' ramp
           = [[pymel]; [pymel]; [maya_cmds]; [pymel]]
        /\ alternates (shades_of s' ramp [2; 0; 1; 3]) = true.
Proof.
  run_concrete self s' H.
  destruct (C4_core_ramp_stops
              willing "UVBasedPoseReader" 180%Q true [] _ _
              eq_refl H)
    as (ramp & rmv & rvs & Hr & _ & _ & _ & Hs & _ & Hn & Hp & _ & _ & _
        & _ & _ & _ & _ & _ & _ & Ha).
  exists ramp; repeat split; assumption.
Defined.

Lemma C5_witness :
  exists self s',
    run willing module_body [] = (Ok self, s')
    /\ exists ramp,
        UVBasedPoseReader.ramp self = Some ramp
        /\ eval 4 s' (fun _ => Some 2%Q) (ramp, Attr "uCoord")
           = Some (2 * (1 # 4))%Q.
Proof.
  run_concrete self s' H.
  destruct (C5_sampling_chain
              willing "UVBasedPoseReader" 180%Q true [] _ _
              eq_refl H)
    as (sampler & ramp & mdl & _ & Hr & _ & _ & _ & _ & _ & _ & Hev).
  exists ramp; split; [assumption |].
  apply (Hev (fun _ => Some 2%Q) 2%Q 4 eq_refl (le_n 4)).
Defined.

Lemma C6_witness :
  exists self s',
    run willing module_body [] = (Ok self, s')
    /\ exists ramp,
        UVBasedPoseReader.ramp self = Some ramp
        /\ settable s' (ramp, colorEntryList 0 ["position"]) = false
        /\ settable s' (ramp, colorEntryList 3 ["position"]) = false
        /\ settable s' (ramp, colorEntryList 1 ["position"]) = true
        /\ settable s' (ramp, colorEntryList 2 ["position"]) = true.
Proof.
  run_concrete self s' H.
  destruct (C6_boundary_stops_are_driven
              willing "UVBasedPoseReader" 180%Q true [] _ _
              eq_refl H)
    as (info & ramp & rmv & rvs & _ & Hr & _ & _ & _ & _ & _
        & H0 & H3 & H1 & H2 & _).
  exists ramp; repeat split; assumption.
Defined.

Lemma C7_witness :
  exists self s',
    run willing
        (UVBasedPoseReader.__init__ (Some "L_arm") (Some 45%Q) (Some true))
        busy_scene = (Ok self, s')
    /\ exists driver pose,
        parent_of s' pose = Some driver
        /\ attrs_set s' pose = [(Attr "tx", Num 1)].
Proof.
  run_concrete self s' H.
  destruct (C7_pose_offset
              willing "L_arm" 45%Q true busy_scene _ _ eq_refl H)
    as (info & driver & pose & _ & _ & _ & _ & _ & _ & Hp & Ht & _).
  exists driver, pose; split; assumption.
Defined.

Lemma C8_witness :
  exists self s',
    run willing
        (UVBasedPoseReader.__init__ (Some "UVBasedPoseReader")
                                    (Some 180%Q) (Some false))
        [] = (Ok self, s')
    /\ exists made,
        nodes s' = [] ++ made
        /\ ~ In "surfaceShader" (map node_type made)
        /\ ~ In "shadingEngine" (map node_type made)
        /\ count_occ string_dec (map node_type made) "ramp" = 1.
Proof.
  run_concrete self s' H.
  destruct (C8_without_visualizer
              willing willing "UVBasedPoseReader" 180%Q [] _ _
              eq_refl H)
    as (made & Hn & _ & Hs & He & Hr & _).
  exists made; repeat split; assumption.
Defined.

Lemma C9_witness :
  exists e s',
    run clash_host module_body [] = (Err e, s')
    /\ (exists c msg, clash_host c s' = Some msg /\ e = HostError msg)
    /\ (exists done, s' = done ++ []).
Proof.
  run_concrete e s' H.
  destruct (C9_errors_propagate
              clash_host None None None [] _ _ eq_refl H)
    as (Hh & Hd & _).
  split; assumption.
Defined.

Lemma C10_witness :
  exists self s',
    run willing module_body busy_scene = (Ok self, s')
    /\ UVBasedPoseReader.name self = "UVBasedPoseReader"
    /\ exists calls, s' = calls ++ busy_scene /\ List.length calls = 62.
Proof.
  run_concrete self s' H.
  destruct C10_import_builds_the_default_rig as (_ & _ & _ & Hrun).
  destruct (Hrun willing busy_scene _ _ eq_refl H)
    as (Hn & _ & _ & calls & made & Hc & Hl & _).
  split; [assumption |].
  exists calls; split; assumption.
Defined.

(** * Beyond the stated claims *)

(** ** More laws of running a script *)

Lemma extends_run {A B : Type} (p : prog A) (q : prog B) :
  extends p q ->
  forall (h : host) (s s1 : scene) (a : A),
    run h p s = (Ok a, s1) ->
    exists extra, snd (run h q s) = extra ++ s1.
Proof.
  induction 1 as [a q | e | c k k' Hk IH]; intros h s s1 a0; simpl.
  - intros [= _ <-].
    destruct (run h q s) as [r sq] eqn:E.
    apply (run_grows _ _ _ _ _ E).
  - discriminate.
  - destruct (h c s); [discriminate | apply IH].
Qed.

Lemma doomed_run {A : Type} (E : error -> Prop) (p : prog A) :
  doomed E p ->
  forall (h : host) (s : scene),
  exists e s',
    run h p s = (Err e, s')
    /\ (E e \/ exists c msg, h c s' = Some msg /\ e = HostError msg).
Proof.
  induction 1 as [e He | c k Hk IH]; intros h s; simpl.
  - exists e, s; auto.
  - destruct (h c s) as [msg |] eqn:Hc.
    + exists (HostError msg), s; split; trivial.
      right; now exists c, msg.
    + apply IH.
Qed.

(** ** More about handles *)

Lemma outputs_fresh (n : nat) (s : scene) (o : node) :
  below n s = true -> n <= o -> outputs s o = [].
Proof.
  intros Hs Ho; induction s as [| c s IH]; trivial.
  simpl in Hs; apply andb_prop in Hs as [Hc Hs].
  destruct c; simpl; auto.
  simpl in Hc; apply andb_prop in Hc as [Hc _].
  rewrite (fresh_neq n o _ Ho Hc); auto.
Qed.

Lemma outputs_moved (n : nat) (s0 : scene) (Hs : below n s0 = true)
      (d : scene) (o : node) :
  outputs (shift n d ++ s0) (up n o)
  = map (fun c => (fst c, shift_plug n (snd c))) (outputs d o).
Proof.
  induction d as [| c d IH]; simpl.
  - apply (outputs_fresh n); trivial; apply up_ge.
  - destruct c; simpl; trivial.
    rewrite up_eqb, IH.
    destruct (Nat.eqb (fst src) o); trivial.
    now rewrite map_app.
Qed.

Lemma asks_shift (n : nat) (c : call) : asks (shift_call n c) = asks c.
Proof. destruct c as [ty [nm |] p | | | | | | | | |]; reflexivity. Qed.

Lemma asked_app (d s : scene) : asked (d ++ s) = asked s ++ asked d.
Proof.
  induction d as [| c d IH]; simpl.
  - now rewrite app_nil_r.
  - now rewrite IH, app_assoc.
Qed.

Lemma asked_shift (n : nat) (d : scene) : asked (shift n d) = asked d.
Proof.
  induction d as [| c d IH]; simpl; trivial.
  now rewrite IH, asks_shift.
Qed.

Lemma mentions_shift (n : nat) (c : call) :
  mentions (shift_call n c) = map (up n) (mentions c).
Proof. destruct c as [ty nm [p |] | | | | | | | | |]; reflexivity. Qed.

Lemma below_mono (m m' : nat) (s : scene) :
  below m s = true -> m <= m' -> below m' s = true.
Proof.
  unfold below; rewrite !forallb_forall; intros H Hm c Hc.
  specialize (H c Hc); rewrite forallb_forall in *; intros o Ho.
  specialize (H o Ho); apply Nat.ltb_lt in H; apply Nat.ltb_lt; lia.
Qed.

Lemma ordered_shift (n : nat) (d : scene) :
  ordered 0 d = true -> ordered n (shift n d) = true.
Proof.
  induction d as [| c d IH]; simpl; trivial.
  intros H; apply andb_prop in H as [Hc Hd].
  rewrite IH by trivial; rewrite andb_true_r.
  rewrite mentions_shift, node_count_shift.
  rewrite forallb_forall in *; intros x Hx.
  apply in_map_iff in Hx as (o & <- & Ho).
  specialize (Hc o Ho); apply Nat.ltb_lt in Hc; apply Nat.ltb_lt.
  unfold up; lia.
Qed.

Lemma ordered_app (base : nat) (rest done : scene) :
  ordered base (rest ++ done) = true -> ordered base done = true.
Proof.
  induction rest as [| c rest IH]; simpl; trivial.
  intros H; apply andb_prop in H as [_ H]; auto.
Qed.

(** Calls made in order on a well-formed scene leave it well-formed. *)
Lemma ordered_ok (s0 done : scene) :
  scene_ok s0 = true ->
  ordered (node_count s0) done = true ->
  scene_ok (done ++ s0) = true.
Proof.
  intros Hok; induction done as [| c d IH]; simpl; trivial.
  intros H; apply andb_prop in H as [Hc Hd].
  specialize (IH Hd); unfold scene_ok in *; simpl.
  apply andb_true_intro; split.
  - rewrite forallb_forall in *; intros o Ho.
    specialize (Hc o Ho); apply Nat.ltb_lt in Hc; apply Nat.ltb_lt.
    rewrite node_count_app; lia.
  - apply (below_mono _ _ _ IH); lia.
Qed.

Lemma NoDup_up (n : nat) (l : list node) :
  NoDup l -> NoDup (map (up n) l).
Proof.
  induction 1 as [| x l Hx Hl IH]; simpl; constructor; trivial.
  intros Hin; apply in_map_iff in Hin as (y & E & Hy).
  unfold up in E; assert (y = x) by lia; subst; contradiction.
Qed.

Lemma above_shift (n : nat) (d : scene) : above n (shift n d) = true.
Proof.
  unfold above, shift; rewrite forallb_forall; intros c Hc.
  apply in_map_iff in Hc as (c0 & <- & _).
  rewrite mentions_shift, forallb_forall; intros x Hx.
  apply in_map_iff in Hx as (o & <- & _).
  apply Nat.leb_le, up_ge.
Qed.

Lemma above_app (n : nat) (rest done : scene) :
  above n (rest ++ done) = true -> above n done = true.
Proof.
  unfold above; rewrite forallb_app; intros H.
  now apply andb_prop in H as [_ H].
Qed.

Lemma above_neq (n o x : node) :
  o < n -> Nat.leb n x = true -> Nat.eqb x o = false.
Proof.
  intros Ho H; apply Nat.leb_le in H; apply Nat.eqb_neq; lia.
Qed.

Lemma find_id_below (c : call) (base o : node) :
  o < base ->
  find (fun i => Nat.eqb (node_id i) o) (new_nodes c base) = None.
Proof.
  intros Ho.
  destruct c as [| | | [] | | | | | |];
    cbv [new_nodes find app node_id]; trivial;
    repeat match goal with
           | |- context [Nat.eqb ?a o] =>
               replace (Nat.eqb a o) with false
                 by (symmetry; apply Nat.eqb_neq; lia)
           end; trivial.
Qed.

(** ** What calls on newer nodes leave alone *)

Section Frame.
Variables (n : nat) (s0 : scene) (o : node).
Hypothesis Ho : o < n.

Lemma incoming_frame (done : scene) (a : attr) :
  above n done = true -> incoming (done ++ s0) (o, a) = incoming s0 (o, a).
Proof.
  induction done as [| c d IH]; simpl; trivial.
  intros H; apply andb_prop in H as [Hc Hd].
  destruct c; simpl; auto.
  simpl in Hc; apply andb_prop in Hc as [_ Hc];
    apply andb_prop in Hc as [Hc _].
  unfold plug_eqb; simpl; rewrite (above_neq n o _ Ho Hc); simpl; auto.
Qed.

Lemma assignments_frame (done : scene) (a : attr) :
  above n done = true ->
  assignments (done ++ s0) (o, a) = assignments s0 (o, a).
Proof.
  induction done as [| c d IH]; simpl; trivial.
  intros H; apply andb_prop in H as [Hc Hd].
  destruct c; simpl; auto.
  simpl in Hc; apply andb_prop in Hc as [Hc _].
  unfold plug_eqb; simpl; rewrite (above_neq n o _ Ho Hc); simpl; auto.
Qed.

Lemma declared_frame (done : scene) :
  above n done = true -> declared (done ++ s0) o = declared s0 o.
Proof.
  induction done as [| c d IH]; simpl; trivial.
  intros H; apply andb_prop in H as [Hc Hd].
  destruct c; simpl; auto.
  simpl in Hc; apply andb_prop in Hc as [Hc _].
  rewrite (above_neq n o _ Ho Hc); auto.
Qed.

Lemma inputs_frame (done : scene) :
  above n done = true -> inputs (done ++ s0) o = inputs s0 o.
Proof.
  induction done as [| c d IH]; simpl; trivial.
  intros H; apply andb_prop in H as [Hc Hd].
  destruct c; simpl; auto.
  simpl in Hc; apply andb_prop in Hc as [_ Hc];
    apply andb_prop in Hc as [Hc _].
  rewrite (above_neq n o _ Ho Hc); auto.
Qed.

Lemma outputs_frame (done : scene) :
  above n done = true -> outputs (done ++ s0) o = outputs s0 o.
Proof.
  induction done as [| c d IH]; simpl; trivial.
  intros H; apply andb_prop in H as [Hc Hd].
  destruct c; simpl; auto.
  simpl in Hc; apply andb_prop in Hc as [Hc _].
  rewrite (above_neq n o _ Ho Hc); auto.
Qed.

Hypothesis Hn : n <= node_count s0.

Lemma info_of_frame (done : scene) :
  info_of (done ++ s0) o = info_of s0 o.
Proof.
  induction done as [| c d IH]; simpl; trivial.
  rewrite find_id_below; trivial.
  rewrite node_count_app; lia.
Qed.

Lemma type_of_frame (done : scene) :
  type_of (done ++ s0) o = type_of s0 o.
Proof. unfold type_of; now rewrite info_of_frame. Qed.

Lemma parent_of_frame (done : scene) :
  above n done = true -> parent_of (done ++ s0) o = parent_of s0 o.
Proof.
  induction done as [| c d IH]; trivial.
  intros H; simpl in H; apply andb_prop in H as [Hc Hd].
  cbn [app]; rewrite parent_of_cons, find_id_below, (IH Hd)
    by (rewrite node_count_app; lia).
  destruct c; trivial.
  simpl in Hc; apply andb_prop in Hc as [Hc _].
  now rewrite (above_neq n o _ Ho Hc).
Qed.
End Frame.

Lemma nodes_app (d s : scene) :
  exists added, nodes (d ++ s) = nodes s ++ added.
Proof.
  induction d as [| c d [added IH]]; simpl.
  - exists []; now rewrite app_nil_r.
  - rewrite IH; eexists; now rewrite <- app_assoc.
Qed.

(** The unhindered run of a script that names no node but its own, on a
    well-formed scene, is its run on the empty scene, renumbered. *)
Lemma moved_willing {A : Type} (sh : A -> A) (p : prog A) (s0 d0 : scene)
      (r0 : result A) :
  moved (node_count s0) sh p p ->
  scene_ok s0 = true ->
  run willing p [] = (r0, d0) ->
  run willing p s0 = (map_result sh r0, shift (node_count s0) d0 ++ s0).
Proof.
  intros Hp Hok H0.
  pose proof (moved_run (node_count s0) s0 eq_refl Hok _ _ _ Hp []) as M.
  rewrite H0 in M; exact M.
Qed.

(** Wherever a build stops, on whatever host, what it has added to the
    scene is a later stretch of the journal of the build on the empty
    scene, renumbered. *)
Lemma build_stops_within (h : host) (name : option string)
      (ca : option Q) (vis : option bool) (s0 s' : scene)
      (r : result UVBasedPoseReader.self_t) :
  scene_ok s0 = true ->
  run h (UVBasedPoseReader.__init__ name ca vis) s0 = (r, s') ->
  exists r0 d0 rest done,
    run willing (UVBasedPoseReader.__init__ name ca vis) [] = (r0, d0)
    /\ shift (node_count s0) d0 = rest ++ done
    /\ s' = done ++ s0.
Proof.
  intros Hok H.
  destruct (run willing (UVBasedPoseReader.__init__ name ca vis) [])
    as [r0 d0] eqn:H0.
  destruct (run_prefix _ _ _ _ _ H) as [rest P].
  destruct (run_grows _ _ _ _ _ H) as [done ->].
  rewrite (moved_willing _ _ _ _ _
             (__init___moved (node_count s0) name ca vis) Hok H0) in P.
  cbn [snd] in P; rewrite app_assoc in P; apply app_inv_tail in P.
  exists r0, d0, rest, done; repeat split; trivial.
Qed.

(** The calls of a build are made in order, whatever its arguments. *)
Lemma build_ordered (name : option string) (ca : option Q)
      (vis : option bool) (r0 : result UVBasedPoseReader.self_t)
      (d0 : scene) :
  run willing (UVBasedPoseReader.__init__ name ca vis) [] = (r0, d0) ->
  ordered 0 d0 = true.
Proof.
  intros H; destruct name, ca, vis as [[] |];
    vm_compute in H; injection H as _ <-; vm_compute; reflexivity.
Qed.

Lemma build_keeps_ok (h : host) (name : option string)
      (ca : option Q) (vis : option bool) (s0 s' : scene)
      (r : result UVBasedPoseReader.self_t) :
  scene_ok s0 = true ->
  run h (UVBasedPoseReader.__init__ name ca vis) s0 = (r, s') ->
  scene_ok s' = true.
Proof.
  intros Hok H.
  destruct (build_stops_within _ _ _ _ _ _ _ Hok H)
    as (r0 & d0 & rest & done & H0 & E & ->).
  apply ordered_ok; trivial.
  apply (ordered_app _ rest); rewrite <- E.
  apply ordered_shift, (build_ordered _ _ _ _ _ H0).
Qed.

(** What a build adds, wherever it stops, refers to none of the nodes
    the scene held. *)
Lemma build_above (h : host) (name : option string)
      (ca : option Q) (vis : option bool) (s0 s' : scene)
      (r : result UVBasedPoseReader.self_t) :
  scene_ok s0 = true ->
  run h (UVBasedPoseReader.__init__ name ca vis) s0 = (r, s') ->
  exists done, s' = done ++ s0 /\ above (node_count s0) done = true.
Proof.
  intros Hok H.
  destruct (build_stops_within _ _ _ _ _ _ _ Hok H)
    as (r0 & d0 & rest & done & H0 & E & ->).
  exists done; split; trivial.
  apply (above_app _ rest); rewrite <- E; apply above_shift.
Qed.

(** ** More of the graph the builder leaves *)

Ltac to_origin_more Hok :=
  to_origin Hok;
  rewrite ?(outputs_moved _ _ Hok), ?(shape_of_moved _ _ eq_refl Hok).

Ltac settle_more Hok := to_origin_more Hok; vm_compute; repeat split.

(** X1. The sampling loop.  The sphere is made without construction
    history and put under the info node; the closest-point sampler reads
    the sphere's world-space surface and the pose locator's world
    translation, taken by a decomposeMatrix node from the pose's world
    matrix, and these are its only inputs; its parameterU goes to the
    multiplier and nowhere else.  No value is set on the sphere, the
    sampler or the decomposeMatrix node. *)
Theorem X1_sampling_loop
        (h : host) (name : string) (ca : Q) (vis : bool)
        (s0 s' : scene) (self : UVBasedPoseReader.self_t) :
  scene_ok s0 = true ->
  run h (UVBasedPoseReader.__init__ (Some name) (Some ca) (Some vis)) s0
  = (Ok self, s') ->
  exists info sphere shape sampler mdl pose dcm,
    UVBasedPoseReader.info_node self = Some info
    /\ UVBasedPoseReader.sphere self = Some sphere
    /\ UVBasedPoseReader.point_on_surface self = Some sampler
    /\ UVBasedPoseReader.pose self = Some pose
    /\ type_of s' sphere = Some "transform"
    /\ parent_of s' sphere = Some info
    /\ shape_of s' sphere = Some shape
    /\ type_of s' shape = Some "nurbsSurface"
    /\ type_of s' mdl = Some "multDoubleLinear"
    /\ type_of s' dcm = Some "decomposeMatrix"
    /\ inputs s' sampler
       = [ (Attr "inputSurface", (sphere, Attr "ws"));
           (Attr "inPosition", (dcm, Attr "outputTranslate")) ]
    /\ outputs s' sampler = [(Attr "parameterU", (mdl, Attr "input1"))]
    /\ inputs s' dcm = [(Attr "inputMatrix", (pose, Attr "wm"))]
    /\ outputs s' pose = [(Attr "wm", (dcm, Attr "inputMatrix"))]
    /\ outputs s' sphere = [(Attr "ws", (sampler, Attr "inputSurface"))]
    /\ attrs_set s' sphere = []
    /\ attrs_set s' sampler = []
    /\ attrs_set s' dcm = []
    /\ In (Sphere false ("C_" ++ name ++ "_NRB")%string) s'.
Proof.
  intros Hok H; destruct vis; journal_of H Hok;
    exists (up (node_count s0) 0), (up (node_count s0) 1),
           (up (node_count s0) 2), (up (node_count s0) 3),
           (up (node_count s0) 4), (up (node_count s0) 10),
           (up (node_count s0) 12);
    (do 18 (split; [now settle_more Hok |]));
    apply in_or_app; left; vm_compute;
    repeat (first [left; reflexivity | right]).
Qed.

(** X2. The info node's visualize attribute is added and then left
    alone: whether the visualizer is built or not, the one connection out
    of the info node is coneAngle into the remap node, nothing is
    connected into or out of visualize, and no value is ever set on the
    info node. *)
Theorem X2_visualize_drives_nothing
        (h : host) (name : string) (ca : Q) (vis : bool)
        (s0 s' : scene) (self : UVBasedPoseReader.self_t) :
  scene_ok s0 = true ->
  run h (UVBasedPoseReader.__init__ (Some name) (Some ca) (Some vis)) s0
  = (Ok self, s') ->
  exists info rmv,
    UVBasedPoseReader.info_node self = Some info
    /\ type_of s' rmv = Some "remapValue"
    /\ map fst (declared s' info) = ["outValue"; "coneAngle"; "visualize"]
    /\ outputs s' info = [(Attr "coneAngle", (rmv, Attr "inputValue"))]
    /\ map fst (inputs s' info) = [Attr "outValue"]
    /\ incoming s' (info, Attr "visualize") = []
    /\ attrs_set s' info = []
    /\ forall p : plug, ~ In (Attr "visualize", p) (outputs s' info).
Proof.
  intros Hok H; destruct vis; journal_of H Hok;
    exists (up (node_count s0) 0), (up (node_count s0) 6);
    (do 7 (split; [now settle_more Hok |]));
    intros p; to_origin_more Hok; vm_compute;
    intros [A | []]; discriminate.
Qed.

(** X3. The instance a build hands back.  The three arguments are kept
    as given; info_node, sphere, point_on_surface, ramp, driver and pose
    hold six different nodes, all created by this build, of the types
    their names say; nurbs_sphere, which [__init__] sets to None, is
    never assigned: the sphere is kept under [sphere]. *)
Theorem X3_instance_fields
        (h : host) (name : string) (ca : Q) (vis : bool)
        (s0 s' : scene) (self : UVBasedPoseReader.self_t) :
  scene_ok s0 = true ->
  run h (UVBasedPoseReader.__init__ (Some name) (Some ca) (Some vis)) s0
  = (Ok self, s') ->
  UVBasedPoseReader.name self = name
  /\ UVBasedPoseReader.cone_angle self = ca
  /\ UVBasedPoseReader.with_visualizer self = vis
  /\ UVBasedPoseReader.nurbs_sphere self = None
  /\ exists info sphere sampler ramp driver pose,
      UVBasedPoseReader.info_node self = Some info
      /\ UVBasedPoseReader.sphere self = Some sphere
      /\ UVBasedPoseReader.point_on_surface self = Some sampler
      /\ UVBasedPoseReader.ramp self = Some ramp
      /\ UVBasedPoseReader.driver self = Some driver
      /\ UVBasedPoseReader.pose self = Some pose
      /\ type_of s' info = Some "transform"
      /\ type_of s' sphere = Some "transform"
      /\ type_of s' sampler = Some "closestPointOnSurface"
      /\ type_of s' ramp = Some "ramp"
      /\ type_of s' driver = Some "transform"
      /\ type_of s' pose = Some "transform"
      /\ NoDup [info; sphere; sampler; ramp; driver; pose]
      /\ Forall (fun o => node_count s0 <= o < node_count s')
                [info; sphere; sampler; ramp; driver; pose].
Proof.
  intros Hok H; destruct vis; journal_of H Hok;
    (do 4 (split; [reflexivity |]));
    exists (up (node_count s0) 0), (up (node_count s0) 1),
           (up (node_count s0) 3), (up (node_count s0) 5),
           (up (node_count s0) 8), (up (node_count s0) 10);
    (do 12 (split; [now settle Hok |]));
    (split;
     [ change (NoDup (map (up (node_count s0)) [0; 1; 3; 5; 8; 10]));
       apply NoDup_up; repeat constructor; simpl; intuition discriminate
     | rewrite (node_count_moved _ _ _ eq_refl);
       match goal with
       | |- context [node_count ?d] =>
           let k := eval vm_compute in (node_count d) in
           change (node_count d) with k
       end;
       unfold up; repeat constructor; lia ]).
Qed.

(** X4. The two moving boundaries of the ramp, for a cone angle within
    the bounds of the attribute (0 to 180): stop 0 sits at
    [1 - cone_angle / 360], between 0.5 and 1; stop 3 at
    [cone_angle / 360], between 0 and 0.5; they mirror each other about
    0.5, so they never cross, and they meet only at 180. *)
Theorem X4_boundaries_stay_apart
        (h : host) (name : string) (ca : Q) (vis : bool)
        (s0 s' : scene) (self : UVBasedPoseReader.self_t) :
  scene_ok s0 = true ->
  run h (UVBasedPoseReader.__init__ (Some name) (Some ca) (Some vis)) s0
  = (Ok self, s') ->
  (0 <= ca)%Q -> (ca <= 180)%Q ->
  forall (env : plug -> option Q) (fuel : nat),
    6 <= fuel ->
    exists (ramp : node) (p0 p3 : Q),
      UVBasedPoseReader.ramp self = Some ramp
      /\ eval fuel s' env (ramp, colorEntryList 0 ["position"]) = Some p0
      /\ eval fuel s' env (ramp, colorEntryList 3 ["position"]) = Some p3
      /\ (p0 == 1 - ca / 360)%Q
      /\ (p3 == ca / 360)%Q
      /\ (1 # 2 <= p0)%Q /\ (p0 <= 1)%Q
      /\ (0 <= p3)%Q /\ (p3 <= 1 # 2)%Q
      /\ (p0 + p3 == 1)%Q
      /\ (p3 <= p0)%Q
      /\ (p3 == p0 -> ca == 180)%Q.
Proof.
  intros Hok H Hlo Hhi env fuel Hfuel.
  assert (V : forall p0 p3 : Q,
             (p0 == remap ca 0 180 1 (1 # 2))%Q ->
             (p3 == reverse (remap ca 0 180 1 (1 # 2)))%Q ->
             (p0 == 1 - ca / 360)%Q
             /\ (p3 == ca / 360)%Q
             /\ (1 # 2 <= p0)%Q /\ (p0 <= 1)%Q
             /\ (0 <= p3)%Q /\ (p3 <= 1 # 2)%Q
             /\ (p0 + p3 == 1)%Q
             /\ (p3 <= p0)%Q
             /\ (p3 == p0 -> ca == 180)%Q).
  { intros p0 p3 E0 E3.
    assert (F0 : (remap ca 0 180 1 (1 # 2) == 1 - ca * (1 # 360))%Q)
      by (unfold remap; field).
    assert (F3 : (reverse (remap ca 0 180 1 (1 # 2)) == ca * (1 # 360))%Q)
      by (unfold reverse, remap; field).
    assert (D : (ca / 360 == ca * (1 # 360))%Q) by field.
    revert E0 E3 F0 F3 D.
    generalize (remap ca 0 180 1 (1 # 2)),
               (reverse (remap ca 0 180 1 (1 # 2))), (ca / 360)%Q.
    intros x y z E0 E3 F0 F3 D.
    repeat split; try lra; intros ?; lra. }
  destruct fuel as [| [| [| [| [| [| fuel]]]]]]; try lia.
  destruct vis; journal_of H Hok;
    exists (up (node_count s0) 5), (remap ca 0 180 1 (1 # 2)),
           (reverse (remap ca 0 180 1 (1 # 2)));
    (split; [reflexivity |]);
    (split; [to_origin Hok; vm_compute; reflexivity |]);
    (split; [to_origin Hok; vm_compute; reflexivity |]);
    apply V; reflexivity.
Qed.

(** X5. The visualizer network, when it is built.  A surfaceShader
    feeds a render set and is itself fed by a second ramp; that ramp has
    the four stops 0 to 3, every colour set to black, the colour of stop
    2 through maya.cmds and the others through pymel, and none negative;
    its stops 1 and 2 sit at the set positions 1 and 0, and the positions
    of its stops 0 and 3 are taken from the same stops of the core ramp.
    The core ramp's outColorR drives the green channel of stop 1
    directly, and the red channel of stop 2 through a remap node set to
    map the range from -1 to 0 onto the range from 1 to 0.  The last
    call hands the shader to the sphere's shape. *)
Theorem X5_visualizer_network
        (h : host) (name : string) (ca : Q)
        (s0 s' : scene) (self : UVBasedPoseReader.self_t) :
  scene_ok s0 = true ->
  run h (UVBasedPoseReader.__init__ (Some name) (Some ca) (Some true)) s0
  = (Ok self, s') ->
  exists info ramp sphere shape sdr sg vramp vrmv,
    UVBasedPoseReader.info_node self = Some info
    /\ UVBasedPoseReader.ramp self = Some ramp
    /\ UVBasedPoseReader.sphere self = Some sphere
    /\ shape_of s' sphere = Some shape
    /\ type_of s' sdr = Some "surfaceShader"
    /\ type_of s' sg = Some "shadingEngine"
    /\ type_of s' vramp = Some "ramp"
    /\ type_of s' vrmv = Some "remapValue"
    /\ inputs s' sg = [(Attr "surfaceShader", (sdr, Attr "outColor"))]
    /\ inputs s' sdr = [(Attr "outColor", (vramp, Attr "outColor"))]
    /\ inputs s' vramp
       = [ (colorEntryList 1 ["color"; "colorG"], (ramp, Attr "outColorR"));
           (colorEntryList 2 ["color"; "colorR"], (vrmv, Attr "outValue"));
           (colorEntryList 0 ["position"],
            (ramp, colorEntryList 0 ["position"]));
           (colorEntryList 3 ["position"],
            (ramp, colorEntryList 3 ["position"])) ]
    /\ inputs s' vrmv = [(Attr "inputValue", (ramp, Attr "outColorR"))]
    /\ attrs_set s' vrmv
       = [ (Attr "inputMin", Num (-1)); (Attr "inputMax", Num 0);
           (Attr "outputMin", Num 1); (Attr "outputMax", Num 0) ]
    /\ attrs_set s' vramp
       = [ (Attr "type", Num 1);
           (colorEntryList 0 ["color"], Double3 0 0 0);
           (colorEntryList 1 ["position"], Num 1);
           (colorEntryList 1 ["color"], Double3 0 0 0);
           (colorEntryList 2 ["position"], Num 0);
           (colorEntryList 2 ["color"], Double3 0 0 0);
           (colorEntryList 3 ["color"], Double3 0 0 0) ]
    /\ stop_indices s' vramp = [0; 1; 2; 3]
    /\ stop_color_paths s' vramp = [[pymel]; [pymel]; [maya_cmds]; [pymel]]
    /\ negative_stops s' vramp = []
    /\ outputs s' ramp
       = [ (Attr "outColorR", (info, Attr "outValue"));
           (Attr "outColorR", (vramp, colorEntryList 1 ["color"; "colorG"]));
           (Attr "outColorR", (vrmv, Attr "inputValue"));
           (colorEntryList 0 ["position"],
            (vramp, colorEntryList 0 ["position"]));
           (colorEntryList 3 ["position"],
            (vramp, colorEntryList 3 ["position"])) ]
    /\ hd_error s'
       = Some (DefaultNavigation sdr (shape, Elem "instObjGroups" 0 [])
                                 true).
Proof.
  intros Hok H; journal_of H Hok.
  exists (up (node_count s0) 0), (up (node_count s0) 5),
         (up (node_count s0) 1), (up (node_count s0) 2),
         (up (node_count s0) 13), (up (node_count s0) 14),
         (up (node_count s0) 15), (up (node_count s0) 16).
  do 18 (split; [now settle_more Hok |]).
  vm_compute; reflexivity.
Qed.

(** X6. What the visualizer shows, for a value [v] of the core ramp's
    outColorR within the bounds of outValue, -1 to 1.  The info node's
    outValue and the green channel of stop 1 of the second ramp are [v].
    For [v] within the input range of the visualizer's remap node, -1 to
    0, the red channel of its stop 2 is [- v], between 0 and 1: 1 for
    -1, 0 for 0.  The positions of its stops 0 and 3 are those of the
    core ramp's. *)
Theorem X6_visualizer_readout
        (h : host) (name : string) (ca : Q)
        (s0 s' : scene) (self : UVBasedPoseReader.self_t) :
  scene_ok s0 = true ->
  run h (UVBasedPoseReader.__init__ (Some name) (Some ca) (Some true)) s0
  = (Ok self, s') ->
  exists info ramp vramp,
    UVBasedPoseReader.info_node self = Some info
    /\ UVBasedPoseReader.ramp self = Some ramp
    /\ type_of s' vramp = Some "ramp"
    /\ vramp <> ramp
    /\ forall (env : plug -> option Q) (v : Q) (fuel : nat),
        env (ramp, Attr "outColorR") = Some v ->
        (-1 <= v)%Q -> (v <= 1)%Q ->
        7 <= fuel ->
        eval fuel s' env (info, Attr "outValue") = Some v
        /\ eval fuel s' env (vramp, colorEntryList 1 ["color"; "colorG"])
           = Some v
        /\ ((v <= 0)%Q ->
            exists red : Q,
              eval fuel s' env
                   (vramp, colorEntryList 2 ["color"; "colorR"])
              = Some red
              /\ (red == - v)%Q
              /\ (0 <= red)%Q /\ (red <= 1)%Q
              /\ (v == -1 -> red == 1)%Q
              /\ (v == 0 -> red == 0)%Q)
        /\ (exists p0 : Q,
               eval fuel s' env (ramp, colorEntryList 0 ["position"])
               = Some p0
               /\ eval fuel s' env (vramp, colorEntryList 0 ["position"])
                  = Some p0)
        /\ (exists p3 : Q,
               eval fuel s' env (ramp, colorEntryList 3 ["position"])
               = Some p3
               /\ eval fuel s' env (vramp, colorEntryList 3 ["position"])
                  = Some p3).
Proof.
  intros Hok H; journal_of H Hok.
  exists (up (node_count s0) 0), (up (node_count s0) 5),
         (up (node_count s0) 15).
  do 3 (split; [now settle Hok |]).
  split; [unfold up; lia |].
  intros env v fuel Hv Hlo Hhi Hfuel.
  assert (R : (remap v (-1) 0 1 0 == - v)%Q) by (unfold remap; field).
  destruct fuel as [| [| [| [| [| [| [| fuel]]]]]]]; try lia.
  to_origin Hok.
  set (env' := fun q => env (shift_plug (node_count s0) q)).
  change (env' (5, Attr "outColorR") = Some v) in Hv.
  clearbody env'; vm_compute in Hv.
  split; [vm_compute; now rewrite Hv |].
  split; [vm_compute; now rewrite Hv |].
  split.
  { intros Hneg; exists (remap v (-1) 0 1 0).
    split; [vm_compute; now rewrite Hv |].
    split; [exact R |].
    split; [rewrite R; lra |].
    split; [rewrite R; lra |].
    split; intros E; rewrite R, E; reflexivity. }
  split.
  - exists (remap ca 0 180 1 (1 # 2)); split; vm_compute; reflexivity.
  - exists (reverse (remap ca 0 180 1 (1 # 2)));
      split; vm_compute; reflexivity.
Qed.

(** ** What a build does to the scene around it *)

Lemma attrs_set_frame (n : nat) (s0 done : scene) (o : node) :
  o < n -> above n done = true ->
  attrs_set (done ++ s0) o = attrs_set s0 o.
Proof.
  intros Ho; induction done as [| c d IH]; simpl; trivial.
  intros H; apply andb_prop in H as [Hc Hd].
  destruct c; simpl; auto.
  simpl in Hc; apply andb_prop in Hc as [Hc _].
  rewrite (above_neq n o _ Ho Hc); auto.
Qed.

Lemma build_size (name : option string) (ca : option Q)
      (vis : option bool) (r0 : result UVBasedPoseReader.self_t)
      (d0 : scene) :
  run willing (UVBasedPoseReader.__init__ name ca vis) [] = (r0, d0) ->
  exists self0,
    r0 = Ok self0
    /\ node_count d0
       = (if UVBasedPoseReader.with_visualizer self0 then 17 else 13)
    /\ List.length d0
       = (if UVBasedPoseReader.with_visualizer self0 then 62 else 39).
Proof.
  intros H; destruct name, ca, vis as [[] |];
    vm_compute in H; injection H as <- <-;
    eexists; repeat split.
Qed.

(** X7. A build keeps the scene well-formed, whether it returns or
    raises, on whatever host: the calls it got through refer to nodes of
    the scene only, so a later build starts from a scene it can work on.
    The nodes the scene held are still there, in their place; a build
    that returns has added 17 nodes with the visualizer and 13 without,
    a build that raises at most 17. *)
Theorem X7_scene_stays_well_formed
        (h : host) (name : option string) (ca : option Q)
        (vis : option bool) (s0 s' : scene)
        (r : result UVBasedPoseReader.self_t) :
  scene_ok s0 = true ->
  run h (UVBasedPoseReader.__init__ name ca vis) s0 = (r, s') ->
  scene_ok s' = true
  /\ (exists added, nodes s' = nodes s0 ++ added)
  /\ node_count s0 <= node_count s' <= node_count s0 + 17
  /\ forall self,
      r = Ok self ->
      node_count s'
      = node_count s0
        + (if UVBasedPoseReader.with_visualizer self then 17 else 13).
Proof.
  intros Hok H.
  split; [apply (build_keeps_ok _ _ _ _ _ _ _ Hok H) |].
  destruct (build_stops_within _ _ _ _ _ _ _ Hok H)
    as (r0 & d0 & rest & done & H0 & E & ->).
  split; [apply nodes_app |].
  destruct (build_size _ _ _ _ _ H0) as (self0 & -> & Hn & _).
  split.
  - apply (f_equal node_count) in E.
    rewrite node_count_shift, node_count_app in E.
    rewrite node_count_app.
    destruct (UVBasedPoseReader.with_visualizer self0); lia.
  - intros self ->.
    destruct (build_on _ _ _ _ _ _ _ Hok H) as (self1 & d1 & H1 & -> & E1).
    rewrite H0 in H1; injection H1 as <- <-.
    rewrite E1, node_count_app, node_count_shift, Hn.
    replace (UVBasedPoseReader.with_visualizer
               (shift_self (node_count s0) self0))
      with (UVBasedPoseReader.with_visualizer self0)
      by now destruct self0.
    lia.
Qed.

(** X8. A build leaves every node the scene already held as it was,
    whether it returns or raises, on whatever host: its type, its parent,
    the attributes added to it, the values set on it and the connections
    into it and out of it are what they were. *)
Theorem X8_existing_nodes_untouched
        (h : host) (name : option string) (ca : option Q)
        (vis : option bool) (s0 s' : scene)
        (r : result UVBasedPoseReader.self_t) (o : node) :
  scene_ok s0 = true ->
  run h (UVBasedPoseReader.__init__ name ca vis) s0 = (r, s') ->
  o < node_count s0 ->
  type_of s' o = type_of s0 o
  /\ parent_of s' o = parent_of s0 o
  /\ declared s' o = declared s0 o
  /\ attrs_set s' o = attrs_set s0 o
  /\ inputs s' o = inputs s0 o
  /\ outputs s' o = outputs s0 o
  /\ forall a : attr,
      incoming s' (o, a) = incoming s0 (o, a)
      /\ assignments s' (o, a) = assignments s0 (o, a)
      /\ settable s' (o, a) = settable s0 (o, a).
Proof.
  intros Hok H Ho.
  destruct (build_above _ _ _ _ _ _ _ Hok H) as (done & -> & Ha).
  split; [apply (type_of_frame (node_count s0)); trivial |].
  split; [apply (parent_of_frame (node_count s0)); trivial |].
  split; [apply (declared_frame (node_count s0)); trivial |].
  split; [apply (attrs_set_frame (node_count s0)); trivial |].
  split; [apply (inputs_frame (node_count s0)); trivial |].
  split; [apply (outputs_frame (node_count s0)); trivial |].
  intros a.
  assert (I : incoming (done ++ s0) (o, a) = incoming s0 (o, a))
    by (apply (incoming_frame (node_count s0)); trivial).
  split; [exact I |].
  split; [apply (assignments_frame (node_count s0)); trivial |].
  unfold settable; now rewrite I.
Qed.

(** ** The phases of a build *)

Ltac extends_step :=
  match goal with
  | |- extends ?p ?q =>
      let p' := eval hnf in p in
      let q' := eval hnf in q in
      change (extends p' q')
  end;
  lazymatch goal with
  | |- extends (Ret _) _ => apply extends_ret
  | |- extends (Throw _) _ => apply extends_throw
  | |- extends (Call ?c ?k) (Call _ ?k') =>
      apply (extends_call c k k'); intros ?
  | |- _ =>
      match goal with
      | v : pyval |- _ => destruct v as [| ? | [| ? ?]]
      end
  end.

Lemma visualizer_comes_last (name : string) (ca : Q) :
  extends
    (UVBasedPoseReader.__init__ (Some name) (Some ca) (Some false))
    (UVBasedPoseReader.__init__ (Some name) (Some ca) (Some true)).
Proof. repeat extends_step. Qed.

Lemma writes_shift (n : nat) (c : call) :
  writes (shift_call n c) = map (up n) (writes c).
Proof. destruct c; reflexivity. Qed.

Lemma writes_above_shift (n m : nat) (d : scene) :
  writes_above m d = true -> writes_above (up n m) (shift n d) = true.
Proof.
  unfold writes_above, shift; rewrite !forallb_forall; intros H c Hc.
  apply in_map_iff in Hc as (c0 & <- & Hc0).
  specialize (H c0 Hc0).
  rewrite writes_shift; rewrite forallb_forall in *; intros x Hx.
  apply in_map_iff in Hx as (o & <- & Ho).
  specialize (H o Ho); apply Nat.leb_le in H; apply Nat.leb_le.
  unfold up; lia.
Qed.

Lemma writes_above_app (n : nat) (rest done : scene) :
  writes_above n (rest ++ done) = true -> writes_above n done = true.
Proof.
  unfold writes_above; rewrite forallb_app; intros H.
  now apply andb_prop in H as [_ H].
Qed.

Section Unwritten.
Variables (n : nat) (s : scene) (o : node).
Hypothesis Ho : o < n.

Lemma inputs_unwritten (done : scene) :
  writes_above n done = true -> inputs (done ++ s) o = inputs s o.
Proof.
  induction done as [| c d IH]; simpl; trivial.
  intros H; apply andb_prop in H as [Hc Hd].
  destruct c; simpl; auto.
  simpl in Hc; apply andb_prop in Hc as [Hc _].
  rewrite (above_neq n o _ Ho Hc); auto.
Qed.

Lemma attrs_set_unwritten (done : scene) :
  writes_above n done = true -> attrs_set (done ++ s) o = attrs_set s o.
Proof.
  induction done as [| c d IH]; simpl; trivial.
  intros H; apply andb_prop in H as [Hc Hd].
  destruct c; simpl; auto.
  simpl in Hc; apply andb_prop in Hc as [Hc _].
  rewrite (above_neq n o _ Ho Hc); auto.
Qed.

Lemma declared_unwritten (done : scene) :
  writes_above n done = true -> declared (done ++ s) o = declared s o.
Proof.
  induction done as [| c d IH]; simpl; trivial.
  intros H; apply andb_prop in H as [Hc Hd].
  destruct c; simpl; auto.
  simpl in Hc; apply andb_prop in Hc as [Hc _].
  rewrite (above_neq n o _ Ho Hc); auto.
Qed.

Hypothesis Hn : n <= node_count s.

Lemma parent_of_unwritten (done : scene) :
  writes_above n done = true -> parent_of (done ++ s) o = parent_of s o.
Proof.
  induction done as [| c d IH]; trivial.
  intros H; simpl in H; apply andb_prop in H as [Hc Hd].
  cbn [app]; rewrite parent_of_cons, find_id_below, (IH Hd)
    by (rewrite node_count_app; lia).
  destruct c; trivial.
  simpl in Hc; apply andb_prop in Hc as [Hc _].
  now rewrite (above_neq n o _ Ho Hc).
Qed.
End Unwritten.

(** X9. The visualizer comes last and is the only thing the flag
    changes.  On one and the same host, if the build without the
    visualizer returns, then the build with it, from the same scene, has
    made every one of those calls before anything else, whether it then
    returns or raises; the at most 23 calls it made after them reparent,
    set and connect into nodes of the visualizer only.  A refusal while
    the visualizer is built thus leaves the rig itself whole: every node
    of it has the type, the parent, the attributes, the set values and
    the inputs it has without the visualizer. *)
Theorem X9_visualizer_failure_leaves_the_rig
        (h : host) (name : string) (ca : Q) (s0 s1 sv : scene)
        (self : UVBasedPoseReader.self_t)
        (r : result UVBasedPoseReader.self_t) :
  scene_ok s0 = true ->
  run h (UVBasedPoseReader.__init__ (Some name) (Some ca) (Some false)) s0
  = (Ok self, s1) ->
  run h (UVBasedPoseReader.__init__ (Some name) (Some ca) (Some true)) s0
  = (r, sv) ->
  exists extra,
    sv = extra ++ s1
    /\ List.length extra <= 23
    /\ forall o : node,
        o < node_count s1 ->
        type_of sv o = type_of s1 o
        /\ parent_of sv o = parent_of s1 o
        /\ declared sv o = declared s1 o
        /\ attrs_set sv o = attrs_set s1 o
        /\ inputs sv o = inputs s1 o.
Proof.
  intros Hok H1 Hv.
  destruct (extends_run _ _ (visualizer_comes_last name ca) h s0 s1 self H1)
    as [extra E].
  rewrite Hv in E; cbn [snd] in E; subst sv.
  exists extra; split; [reflexivity |].
  destruct (build_stops_within _ _ _ _ _ _ _ Hok Hv)
    as (r0 & dT & rest & done & H0 & ET & Ed).
  destruct (build_on _ _ _ _ _ _ _ Hok H1) as (selfF & dF & HF & -> & ->).
  rewrite app_assoc in Ed; apply app_inv_tail in Ed; subst done.
  vm_compute in H0; injection H0 as _ <-.
  vm_compute in HF; injection HF as _ <-.
  match type of ET with
  | shift _ ?d = rest ++ extra ++ shift _ ?f =>
      assert (S : d = firstn 23 d ++ f) by (vm_compute; reflexivity);
      assert (W : writes_above 13 (firstn 23 d) = true)
        by (vm_compute; reflexivity);
      assert (L : List.length (firstn 23 d) = 23)
        by (vm_compute; reflexivity);
      rewrite S in ET;
      set (late := firstn 23 d) in *;
      set (plain := f) in *
  end.
  unfold shift in ET; rewrite map_app, app_assoc in ET.
  apply app_inv_tail in ET; fold (shift (node_count s0) late) in ET.
  assert (N : node_count (shift (node_count s0) plain ++ s0)
              = up (node_count s0) 13)
    by (rewrite (node_count_moved _ _ _ eq_refl); reflexivity).
  assert (Wx : writes_above (up (node_count s0) 13) extra = true).
  { apply (writes_above_app _ rest); rewrite <- ET.
    now apply writes_above_shift. }
  split.
  { apply (f_equal (@List.length call)) in ET.
    unfold shift in ET; rewrite length_map, length_app, L in ET; lia. }
  intros o Ho; rewrite N in Ho.
  split; [apply (type_of_frame (up (node_count s0) 13)); trivial; lia |].
  split; [apply (parent_of_unwritten (up (node_count s0) 13));
          trivial; lia |].
  split; [apply (declared_unwritten (up (node_count s0) 13)); trivial |].
  split; [apply (attrs_set_unwritten (up (node_count s0) 13)); trivial |].
  apply (inputs_unwritten (up (node_count s0) 13)); trivial.
Qed.

Ltac doomed_step :=
  match goal with
  | |- doomed ?E ?p =>
      let p' := eval hnf in p in
      change (doomed E p')
  end;
  lazymatch goal with
  | |- doomed _ (Throw _) => apply doomed_throw; reflexivity
  | |- doomed _ (Call _ _) => apply doomed_call; intros ?
  | |- _ =>
      match goal with
      | v : pyval |- _ => destruct v as [| ? | [| ? ?]]
      end
  end.

(** X10. [_target_setup] needs the sampler that [_basic_setup] leaves
    on the instance.  Run on an instance whose point_on_surface is None,
    it never returns, on any host: it raises AttributeError, unless the
    host refuses a call first; on a host that refuses nothing it raises
    AttributeError at its last statement, after seven calls, and the
    five nodes it has created by then stay in the scene.  With the sampler set, it
    returns on a host that refuses nothing. *)
Theorem X10_target_setup_needs_the_sampler
        (self : UVBasedPoseReader.self_t) :
  (UVBasedPoseReader.point_on_surface self = None ->
   forall (h : host) (s : scene),
   exists e s',
     run h (UVBasedPoseReader._target_setup self) s = (Err e, s')
     /\ (e = AttributeError
         \/ exists c msg, h c s' = Some msg /\ e = HostError msg))
  /\ (UVBasedPoseReader.point_on_surface self = None ->
      forall s : scene,
      exists calls,
        run willing (UVBasedPoseReader._target_setup self) s
        = (Err AttributeError, calls ++ s)
        /\ List.length calls = 7
        /\ node_count (calls ++ s) = node_count s + 5)
  /\ (UVBasedPoseReader.point_on_surface self <> None ->
      forall s : scene,
      exists self' s',
        run willing (UVBasedPoseReader._target_setup self) s
        = (Ok self', s')).
Proof.
  destruct self as [nm ca vis info ns [pos |] rmp drv pse sph];
    cbn [UVBasedPoseReader.point_on_surface].
  - split; [discriminate |]. split; [discriminate |].
    intros _ s; do 2 eexists; vm_compute; reflexivity.
  - split; [| split]; [| | congruence].
    + intros _ h s.
      apply (doomed_run (fun e => e = AttributeError)).
      repeat doomed_step.
    + intros _ s.
      eexists (_ :: _ :: _ :: _ :: _ :: _ :: _ :: []).
      cbn [app].
      split; [vm_compute; reflexivity |].
      split; [reflexivity |].
      cbn [node_count created]; lia.
Qed.

(** X11. [_visualizer_setup] needs the ramp and the sphere that
    [_basic_setup] leaves on the instance.  Run on an instance whose
    ramp or sphere is None, it never returns, on any host: it raises
    AttributeError, unless the host refuses a call first. *)
Theorem X11_visualizer_setup_needs_ramp_and_sphere
        (self : UVBasedPoseReader.self_t) (h : host) (s : scene) :
  UVBasedPoseReader.ramp self = None
  \/ UVBasedPoseReader.sphere self = None ->
  exists e s',
    run h (UVBasedPoseReader._visualizer_setup self) s = (Err e, s')
    /\ (e = AttributeError
        \/ exists c msg, h c s' = Some msg /\ e = HostError msg).
Proof.
  intros Hnone.
  apply (doomed_run (fun e => e = AttributeError)).
  destruct self as [nm ca vis info ns pos [rmp |] drv pse [sph |]];
    cbn [UVBasedPoseReader.ramp UVBasedPoseReader.sphere] in Hnone;
    try (destruct Hnone; discriminate);
    repeat doomed_step.
Qed.

(** ** Names *)

Lemma length_append (x s : string) :
  String.length (x ++ s)%string = String.length x + String.length s.
Proof. induction x as [| a x IH]; simpl; auto. Qed.

Lemma append_cancel_r (x y s : string) :
  (x ++ s)%string = (y ++ s)%string -> x = y.
Proof.
  revert y; induction x as [| a x IH]; intros [| b y] E; simpl in E.
  - reflexivity.
  - apply (f_equal String.length) in E; simpl in E.
    rewrite length_append in E; lia.
  - apply (f_equal String.length) in E; simpl in E.
    rewrite length_append in E; lia.
  - injection E as -> E; f_equal; now apply IH.
Qed.

(** X12. The names a build asks the host for, in order: four made from
    the name argument for the transforms (the group, the sphere, the
    driver and the pose), two for the locator shapes, and fixed ones for
    the helper nodes, "coneAngle" for both the remap and the reverse node
    and, with the visualizer, "visualize" for all four of its nodes; the
    other nodes are left for the host to name.  So no build asks for
    names that are all different, and whether the nodes come out under
    those names is the host's doing.  The group's name tells the name
    argument: different arguments ask for different groups. *)
Theorem X12_names_asked_for
        (h : host) (name : string) (ca : Q) (vis : bool)
        (s0 s' : scene) (self : UVBasedPoseReader.self_t) :
  scene_ok s0 = true ->
  run h (UVBasedPoseReader.__init__ (Some name) (Some ca) (Some vis)) s0
  = (Ok self, s') ->
  asked s'
  = asked s0
    ++ [ ("C_" ++ name ++ "_GRP")%string;
         ("C_" ++ name ++ "_NRB")%string;
         "coneAngle"; "coneAngle";
         ("C_" ++ name ++ "Driver_LOC")%string;
         ("C_" ++ name ++ "Driver_LOCShape")%string;
         ("C_" ++ name ++ "Pose_LOC")%string;
         ("C_" ++ name ++ "Pose_LOCShape")%string ]
    ++ (if vis
        then ["visualize"; "visualize"; "visualize"; "visualize"]
        else [])
  /\ ~ NoDup (asked s')
  /\ forall name' : string,
      ("C_" ++ name ++ "_GRP")%string = ("C_" ++ name' ++ "_GRP")%string ->
      name = name'.
Proof.
  intros Hok H.
  assert (A : asked s'
              = asked s0
                ++ [ ("C_" ++ name ++ "_GRP")%string;
                     ("C_" ++ name ++ "_NRB")%string;
                     "coneAngle"; "coneAngle";
                     ("C_" ++ name ++ "Driver_LOC")%string;
                     ("C_" ++ name ++ "Driver_LOCShape")%string;
                     ("C_" ++ name ++ "Pose_LOC")%string;
                     ("C_" ++ name ++ "Pose_LOCShape")%string ]
                ++ (if vis
                    then ["visualize"; "visualize"; "visualize"; "visualize"]
                    else [])).
  { destruct vis; journal_of H Hok;
      rewrite asked_app, asked_shift; f_equal; vm_compute; reflexivity. }
  split; [exact A |]. split.
  - rewrite A; intros N.
    apply NoDup_app_remove_l in N.
    cbn [app] in N.
    apply NoDup_cons_iff in N as [_ N].
    apply NoDup_cons_iff in N as [_ N].
    apply NoDup_cons_iff in N as [N _].
    apply N; now left.
  - intros name' E; injection E as E.
    now apply append_cancel_r in E.
Qed.

(** ** Two rigs in one scene *)

Lemma incoming_below (n : nat) (s : scene) (p src : plug) :
  below n s = true -> In src (incoming s p) -> fst src < n.
Proof.
  intros Hs; induction s as [| c s IH]; simpl; [tauto |].
  simpl in Hs; apply andb_prop in Hs as [Hc Hs].
  destruct c; simpl; auto.
  destruct (plug_eqb dst p); auto.
  intros Hin; apply in_app_or in Hin as [Hin | [<- | []]]; auto.
  simpl in Hc; apply andb_prop in Hc as [Hc _]; now apply Nat.ltb_lt.
Qed.

(** Calls on newer nodes change no value read off the older ones. *)
Lemma eval_frame (n : nat) (s done : scene) :
  below n s = true -> n <= node_count s -> above n done = true ->
  forall (fuel : nat) (env : plug -> option Q) (p : plug),
    fst p < n ->
    eval fuel (done ++ s) env p = eval fuel s env p.
Proof.
  intros Hs Hn Ha; induction fuel as [| fuel IH]; intros env [o a] Ho;
    trivial.
  cbn [fst] in Ho; cbn [eval fst snd].
  rewrite (incoming_frame n s o Ho done a Ha).
  destruct (incoming s (o, a)) as [| src srcs] eqn:I.
  - unfold is_node, assigned, default_of; cbn [fst snd].
    rewrite (type_of_frame n s o Ho Hn done),
      (assignments_frame n s o Ho done a Ha),
      (declared_frame n s o Ho done Ha).
    repeat match goal with
           | |- context [eval fuel (done ++ s) env (o, Attr ?x)] =>
               rewrite (IH env (o, Attr x) Ho)
           end.
    reflexivity.
  - apply IH, (incoming_below n s (o, a)); trivial.
    rewrite I; now left.
Qed.

(** X13. A second build in the scene of a first.  Its nodes come after
    those of the first (13 or 17 later, by the first build's flag); each
    info node has its own ramp as its one input and its own cone angle
    as the default of coneAngle; and every value read off a node of the
    first rig, or of the scene before it, is what it was before the
    second build. *)
Theorem X13_two_rigs_in_one_scene
        (h h' : host) (name1 name2 : string) (ca1 ca2 : Q)
        (vis1 vis2 : bool) (s0 s1 s2 : scene)
        (self1 self2 : UVBasedPoseReader.self_t) :
  scene_ok s0 = true ->
  run h (UVBasedPoseReader.__init__ (Some name1) (Some ca1) (Some vis1)) s0
  = (Ok self1, s1) ->
  run h' (UVBasedPoseReader.__init__ (Some name2) (Some ca2) (Some vis2)) s1
  = (Ok self2, s2) ->
  exists info1 ramp1 info2 ramp2,
    UVBasedPoseReader.info_node self1 = Some info1
    /\ UVBasedPoseReader.ramp self1 = Some ramp1
    /\ UVBasedPoseReader.info_node self2 = Some info2
    /\ UVBasedPoseReader.ramp self2 = Some ramp2
    /\ info2 = info1 + (if vis1 then 17 else 13)
    /\ ramp2 = ramp1 + (if vis1 then 17 else 13)
    /\ inputs s2 info1 = [(Attr "outValue", (ramp1, Attr "outColorR"))]
    /\ inputs s2 info2 = [(Attr "outValue", (ramp2, Attr "outColorR"))]
    /\ map (fun d => decl_dv (snd d)) (declared s2 info1)
       = [None; Some ca1; Some 1%Q]
    /\ map (fun d => decl_dv (snd d)) (declared s2 info2)
       = [None; Some ca2; Some 1%Q]
    /\ forall (fuel : nat) (env : plug -> option Q) (p : plug),
        fst p < node_count s1 ->
        eval fuel s2 env p = eval fuel s1 env p.
Proof.
  intros Hok H1 H2.
  pose proof (build_keeps_ok _ _ _ _ _ _ _ Hok H1) as Hok1.
  destruct (build_above _ _ _ _ _ _ _ Hok1 H2) as (done & E2 & Ha).
  assert (F : forall (fuel : nat) (env : plug -> option Q) (p : plug),
             fst p < node_count s1 ->
             eval fuel s2 env p = eval fuel s1 env p).
  { intros fuel env p Hp; rewrite E2.
    apply (eval_frame (node_count s1)); trivial. }
  assert (I1 : forall o, o < node_count s1 ->
                         inputs s2 o = inputs s1 o
                         /\ declared s2 o = declared s1 o).
  { intros o Ho; rewrite E2; split.
    - apply (inputs_frame (node_count s1)); trivial.
    - apply (declared_frame (node_count s1)); trivial. }
  clear E2 Ha done.
  assert (N1 : node_count s1
               = node_count s0 + (if vis1 then 17 else 13)).
  { destruct (build_on _ _ _ _ _ _ _ Hok H1) as (a & d & Hd & -> & ->).
    rewrite node_count_app, node_count_shift.
    destruct vis1; vm_compute in Hd; injection Hd as _ <-;
      cbn [node_count created Nat.add]; lia. }
  destruct (build_on _ _ _ _ _ _ _ Hok H1) as (a1 & d1 & Hd1 & E1 & Es1).
  destruct (build_on _ _ _ _ _ _ _ Hok1 H2) as (a2 & d2 & Hd2 & E2 & Es2).
  exists (up (node_count s0) 0), (up (node_count s0) 5),
         (up (node_count s1) 0), (up (node_count s1) 5).
  assert (B1 : up (node_count s0) 0 < node_count s1)
    by (rewrite N1; unfold up; destruct vis1; lia).
  destruct (I1 _ B1) as [-> ->].
  split; [subst self1; destruct vis1; vm_compute in Hd1;
          injection Hd1 as <- _; reflexivity |].
  split; [subst self1; destruct vis1; vm_compute in Hd1;
          injection Hd1 as <- _; reflexivity |].
  split; [subst self2; destruct vis2; vm_compute in Hd2;
          injection Hd2 as <- _; reflexivity |].
  split; [subst self2; destruct vis2; vm_compute in Hd2;
          injection Hd2 as <- _; reflexivity |].
  split; [rewrite N1; unfold up; lia |].
  split; [rewrite N1; unfold up; lia |].
  split; [subst s1; destruct vis1; vm_compute in Hd1;
          injection Hd1 as _ <-; now settle Hok |].
  split; [subst s2; destruct vis2; vm_compute in Hd2;
          injection Hd2 as _ <-; now settle Hok1 |].
  split; [subst s1; destruct vis1; vm_compute in Hd1;
          injection Hd1 as _ <-; now settle Hok |].
  split; [subst s2; destruct vis2; vm_compute in Hd2;
          injection Hd2 as _ <-; now settle Hok1 |].
  exact F.
Qed.

(** ** These properties at work on concrete builds *)

Lemma X1_witness :
  exists self s',
    run willing module_body busy_scene = (Ok self, s')
    /\ exists info sphere sampler,
        parent_of s' sphere = Some info
        /\ map fst (inputs s' sampler)
           = [Attr "inputSurface"; Attr "inPosition"].
Proof.
  run_concrete self s' H.
  destruct (X1_sampling_loop
              willing "UVBasedPoseReader" 180%Q true busy_scene _ _
              eq_refl H)
    as (info & sphere & shape & sampler & mdl & pose & dcm & _ & _ & _ & _
        & _ & Hp & _ & _ & _ & _ & Hi & _).
  exists info, sphere, sampler; split; [assumption |].
  rewrite Hi; reflexivity.
Defined.

Lemma X2_witness :
  exists self s',
    run willing module_body [] = (Ok self, s')
    /\ exists info,
        UVBasedPoseReader.info_node self = Some info
        /\ forall p : plug, ~ In (Attr "visualize", p) (outputs s' info).
Proof.
  run_concrete self s' H.
  destruct (X2_visualize_drives_nothing
              willing "UVBasedPoseReader" 180%Q true [] _ _
              eq_refl H)
    as (info & rmv & Hi & _ & _ & _ & _ & _ & _ & Hv).
  exists info; split; assumption.
Defined.

Lemma X3_witness :
  exists self s',
    run willing module_body [] = (Ok self, s')
    /\ UVBasedPoseReader.nurbs_sphere self = None
    /\ UVBasedPoseReader.sphere self <> None.
Proof.
  run_concrete self s' H.
  destruct (X3_instance_fields
              willing "UVBasedPoseReader" 180%Q true [] _ _
              eq_refl H)
    as (_ & _ & _ & Hn & info & sphere & sampler & ramp & driver & pose
        & _ & Hs & _).
  split; [assumption |]; rewrite Hs; discriminate.
Defined.

Lemma X4_witness :
  exists self s',
    run willing
        (UVBasedPoseReader.__init__ (Some "L_arm") (Some 90%Q) (Some false))
        [] = (Ok self, s')
    /\ exists ramp p0 p3,
        eval 6 s' (fun _ => None) (ramp, colorEntryList 0 ["position"])
        = Some p0
        /\ eval 6 s' (fun _ => None) (ramp, colorEntryList 3 ["position"])
           = Some p3
        /\ (p3 <= p0)%Q.
Proof.
  run_concrete self s' H.
  assert (Hlo : (0 <= 90)%Q) by (unfold Qle; simpl; lia).
  assert (Hhi : (90 <= 180)%Q) by (unfold Qle; simpl; lia).
  destruct (X4_boundaries_stay_apart
              willing "L_arm" 90%Q false [] _ _ eq_refl H Hlo Hhi
              (fun _ => None) 6 (le_n 6))
    as (ramp & p0 & p3 & _ & E0 & E3 & _ & _ & _ & _ & _ & _ & _ & Hle & _).
  exists ramp, p0, p3; repeat split; assumption.
Defined.

Lemma X5_witness :
  exists self s',
    run willing module_body [] = (Ok self, s')
    /\ exists vramp,
        type_of s' vramp = Some "ramp"
        /\ stop_indices s' vramp = [0; 1; 2; 3]
        /\ negative_stops s' vramp = [].
Proof.
  run_concrete self s' H.
  destruct (X5_visualizer_network
              willing "UVBasedPoseReader" 180%Q [] _ _ eq_refl H)
    as (info & ramp & sphere & shape & sdr & sg & vramp & vrmv & _ & _ & _
        & _ & _ & _ & Ht & _ & _ & _ & _ & _ & _ & _ & Hs & _ & Hn & _).
  exists vramp; repeat split; assumption.
Defined.

Lemma X6_witness :
  exists self s',
    run willing module_body [] = (Ok self, s')
    /\ exists vramp red,
        eval 7 s' (fun _ => Some (-1)%Q)
             (vramp, colorEntryList 2 ["color"; "colorR"]) = Some red
        /\ (red == 1)%Q.
Proof.
  run_concrete self s' H.
  destruct (X6_visualizer_readout
              willing "UVBasedPoseReader" 180%Q [] _ _ eq_refl H)
    as (info & ramp & vramp & _ & _ & _ & _ & Hev).
  assert (Hlo : (-1 <= -1)%Q) by (unfold Qle; simpl; lia).
  assert (Hhi : (-1 <= 1)%Q) by (unfold Qle; simpl; lia).
  assert (Hneg : (-1 <= 0)%Q) by (unfold Qle; simpl; lia).
  destruct (Hev (fun _ => Some (-1)%Q) (-1)%Q 7 eq_refl Hlo Hhi (le_n 7))
    as (_ & _ & Hred & _).
  destruct (Hred Hneg) as (red & Er & _ & _ & _ & Hone & _).
  exists vramp, red; split; [assumption |].
  apply Hone; reflexivity.
Defined.

Lemma X7_witness :
  exists e s',
    run clash_host module_body busy_scene = (Err e, s')
    /\ scene_ok s' = true
    /\ node_count busy_scene <= node_count s'.
Proof.
  run_concrete e s' H.
  destruct (X7_scene_stays_well_formed
              clash_host None None None busy_scene _ _ eq_refl H)
    as (Hok & _ & [Hn _] & _).
  split; assumption.
Defined.

Lemma X8_witness :
  exists self s',
    run willing module_body busy_scene = (Ok self, s')
    /\ type_of s' 0 = Some "joint"
    /\ inputs s' 1 = [].
Proof.
  run_concrete self s' H.
  destruct (X8_existing_nodes_untouched
              willing None None None busy_scene _ _ 1 eq_refl H
              (le_n 2))
    as (_ & _ & _ & _ & Hi & _).
  destruct (X8_existing_nodes_untouched
              willing None None None busy_scene _ _ 0 eq_refl H
              (le_S _ _ (le_n 1)))
    as (Ht & _).
  rewrite Ht, Hi; split; reflexivity.
Defined.

Lemma X9_witness :
  exists self s1 e sv,
    run no_sets_host
        (UVBasedPoseReader.__init__ (Some "L_arm") (Some 90%Q) (Some false))
        [] = (Ok self, s1)
    /\ run no_sets_host
           (UVBasedPoseReader.__init__ (Some "L_arm") (Some 90%Q)
                                       (Some true))
           [] = (Err e, sv)
    /\ exists extra, sv = extra ++ s1 /\ List.length extra <= 23.
Proof.
  assert (H1 : exists self s1,
             run no_sets_host
                 (UVBasedPoseReader.__init__ (Some "L_arm") (Some 90%Q)
                                             (Some false))
                 [] = (Ok self, s1))
    by (do 2 eexists; vm_compute; reflexivity).
  assert (Hv : exists e sv,
             run no_sets_host
                 (UVBasedPoseReader.__init__ (Some "L_arm") (Some 90%Q)
                                             (Some true))
                 [] = (Err e, sv))
    by (do 2 eexists; vm_compute; reflexivity).
  destruct H1 as (self & s1 & H1); destruct Hv as (e & sv & Hv).
  exists self, s1, e, sv; split; [exact H1 |]; split; [exact Hv |].
  destruct (X9_visualizer_failure_leaves_the_rig
              no_sets_host "L_arm" 90%Q [] s1 sv self (Err e)
              eq_refl H1 Hv)
    as (extra & E & L & _).
  exists extra; split; assumption.
Defined.

Lemma X10_witness :
  exists calls,
    run willing
        (UVBasedPoseReader._target_setup
           (UVBasedPoseReader.blank "L_arm" 90%Q false))
        busy_scene
    = (Err AttributeError, calls ++ busy_scene)
    /\ List.length calls = 7.
Proof.
  destruct (X10_target_setup_needs_the_sampler
              (UVBasedPoseReader.blank "L_arm" 90%Q false))
    as (_ & Hwilling & _).
  destruct (Hwilling eq_refl busy_scene) as (calls & Hr & Hl & _).
  exists calls; split; assumption.
Defined.

Lemma X11_witness :
  exists e s',
    run willing
        (UVBasedPoseReader._visualizer_setup
           (UVBasedPoseReader.blank "L_arm" 90%Q true))
        [] = (Err e, s').
Proof.
  destruct (X11_visualizer_setup_needs_ramp_and_sphere
              (UVBasedPoseReader.blank "L_arm" 90%Q true) willing []
              (or_introl eq_refl))
    as (e & s' & Hr & _).
  exists e, s'; exact Hr.
Defined.

Lemma X12_witness :
  exists self s',
    run willing module_body [] = (Ok self, s')
    /\ ~ NoDup (asked s').
Proof.
  run_concrete self s' H.
  destruct (X12_names_asked_for
              willing "UVBasedPoseReader" 180%Q true [] _ _ eq_refl H)
    as (_ & Hn & _).
  exact Hn.
Defined.

Lemma X13_witness :
  exists self1 s1 self2 s2,
    run willing
        (UVBasedPoseReader.__init__ (Some "L_arm") (Some 90%Q) (Some true))
        [] = (Ok self1, s1)
    /\ run willing
           (UVBasedPoseReader.__init__ (Some "R_arm") (Some 45%Q)
                                       (Some false))
           s1 = (Ok self2, s2)
    /\ exists info1 info2,
        UVBasedPoseReader.info_node self1 = Some info1
        /\ UVBasedPoseReader.info_node self2 = Some info2
        /\ info2 = info1 + 17
        /\ map (fun d => decl_dv (snd d)) (declared s2 info1)
           = [None; Some 90%Q; Some 1%Q].
Proof.
  assert (H : exists self1 s1 self2 s2,
             run willing
                 (UVBasedPoseReader.__init__ (Some "L_arm") (Some 90%Q)
                                             (Some true))
                 [] = (Ok self1, s1)
             /\ run willing
                    (UVBasedPoseReader.__init__ (Some "R_arm") (Some 45%Q)
                                                (Some false))
                    s1 = (Ok self2, s2))
    by (do 4 eexists; split; vm_compute; reflexivity).
  destruct H as (self1 & s1 & self2 & s2 & H1 & H2).
  exists self1, s1, self2, s2; split; [exact H1 |]; split; [exact H2 |].
  destruct (X13_two_rigs_in_one_scene
              willing willing "L_arm" "R_arm" 90%Q 45%Q true false
              [] s1 s2 self1 self2 eq_refl H1 H2)
    as (info1 & ramp1 & info2 & ramp2 & Hi1 & _ & Hi2 & _ & Hoff & _ & _
        & _ & Hd & _).
  exists info1, info2; repeat split; assumption.
Defined.
